(** * Shelby cross-chain-accounts example: submission orchestrator and listing

    A shallow embedding of
      - hooks/useSubmitFileToChain     (the dual-path transaction submitter),
      - utils/encodeFile.ts            (the commitment step),
      - components/FileUpload          (the upload sequencer and the
                                        filename sanitizer),
      - components/AccountBlobs.tsx    (the listing and its classifier),
    followed by the properties of the specification that concern them.

    Conventions of the model.
      - A JS string is the list of its UTF-16 code units.
      - A JS number that holds an integer is a [Z]; every number the code
        computes with (milliseconds, microseconds, sizes) stays far below
        2^53, where double arithmetic on integers is exact
        (see [expiration_is_safe_integer]).
      - Objects owned by an SDK (payloads, raw transactions, authenticators,
        keys) are opaque to this code and are modelled by their reference.
      - Everything outside the code (wallet, chain, storage, clock) is an
        abstract [World] that every external call may read and change.  Each
        external call is logged, with its arguments and its outcome, in a
        trace. *)

From Stdlib Require Import ZArith NArith List Bool String Ascii Lia.
Import ListNotations.

Set Implicit Arguments.

(* ===================================================================== *)
(** ** JS strings *)

Module JsString.

(** A UTF-16 code unit. *)
Definition code_unit := N.
Definition jsstring := list code_unit.

Definition of_ascii (a : ascii) : code_unit := N_of_ascii a.

Fixpoint of_string (s : string) : jsstring :=
  match s with
  | EmptyString => []
  | String a t => of_ascii a :: of_string t
  end.

(** [s === t] on strings. *)
Fixpoint eqb (s t : jsstring) : bool :=
  match s, t with
  | [], [] => true
  | c :: s', d :: t' => (c =? d)%N && eqb s' t'
  | _, _ => false
  end.

Definition hyphen : code_unit := 45%N.
Definition underscore : code_unit := 95%N.
Definition dot : code_unit := 46%N.

Definition is_hyphen (c : code_unit) : bool := (c =? hyphen)%N.

(** The regular expression class [\s]: WhiteSpace and LineTerminator of
    ECMAScript. *)
Definition is_space (c : code_unit) : bool :=
  ((c =? 9) || (c =? 10) || (c =? 11) || (c =? 12) || (c =? 13)
   || (c =? 32) || (c =? 160) || (c =? 5760)
   || ((8192 <=? c) && (c <=? 8202))
   || (c =? 8232) || (c =? 8233) || (c =? 8239) || (c =? 8287)
   || (c =? 12288) || (c =? 65279))%N.

(** The class [a-zA-Z0-9-_]: letters, digits, hyphen and underscore. *)
Definition is_name_char (c : code_unit) : bool :=
  (((97 <=? c) && (c <=? 122)) || ((65 <=? c) && (c <=? 90))
   || ((48 <=? c) && (c <=? 57)) || (c =? hyphen) || (c =? underscore))%N.

(** [s.replace(/C+/g, r)] for a character class [C]: every maximal run of
    characters of the class becomes one copy of [r].  [in_run] tells that
    the previous character belonged to the run being replaced. *)
Fixpoint replace_runs (C : code_unit -> bool) (r : jsstring)
         (in_run : bool) (s : jsstring) : jsstring :=
  match s with
  | [] => []
  | c :: t =>
      if C c
      then (if in_run then replace_runs C r true t
            else r ++ replace_runs C r true t)
      else c :: replace_runs C r false t
  end.

(** [s.replace(/C/g, r)]: every character of the class becomes [r]. *)
Fixpoint replace_each (C : code_unit -> bool) (r : jsstring)
         (s : jsstring) : jsstring :=
  match s with
  | [] => []
  | c :: t => (if C c then r else [c]) ++ replace_each C r t
  end.

Fixpoint drop_leading (C : code_unit -> bool) (s : jsstring) : jsstring :=
  match s with
  | [] => []
  | c :: t => if C c then drop_leading C t else s
  end.

Fixpoint drop_trailing (C : code_unit -> bool) (s : jsstring) : jsstring :=
  match s with
  | [] => []
  | c :: t =>
      match drop_trailing C t with
      | [] => if C c then [] else [c]
      | t' => c :: t'
      end
  end.

(** [s.replace(/^C+|C+$/g, "")]: the leading run and the trailing run of
    the class are removed. *)
Definition strip_ends (C : code_unit -> bool) (s : jsstring) : jsstring :=
  drop_trailing C (drop_leading C s).

(** [s.trim()]: the characters trimmed are those of [\s]. *)
Definition trim (s : jsstring) : jsstring := strip_ends is_space s.

(** [s.split(sep)] for a one-character separator; the result is never
    empty. *)
Fixpoint split (sep : code_unit) (s : jsstring) : list jsstring :=
  match s with
  | [] => [[]]
  | c :: t =>
      if (c =? sep)%N then [] :: split sep t
      else match split sep t with
           | [] => [[c]]
           | p :: ps => (c :: p) :: ps
           end
  end.

End JsString.

Import JsString.

(* ===================================================================== *)
(** ** The filename sanitizer (FileUpload, sanitizeInput) *)

Definition sanitizeInput (input : jsstring) : jsstring :=
  let sanitized := replace_runs is_space [hyphen] false input in
  let sanitized := replace_each (fun c => negb (is_name_char c)) [hyphen] sanitized in
  let sanitized := replace_runs is_hyphen [hyphen] false sanitized in
  let sanitized := strip_ends is_hyphen sanitized in
  sanitized.


(* ===================================================================== *)
(** ** Data *)

(** A reference to an object owned by an SDK. *)
Definition objref := N.

(** An account address, by its canonical string form. *)
Definition AccountAddress := jsstring.

Record AccountInfo := { address : AccountAddress }.

(** The wallet descriptor; only the capability flag is read. *)
Record Wallet := { isAptosNativeWallet : bool }.

(** A [File]: its name, its MIME type and the blob parts it wraps. *)
Record File := { file_name : jsstring; file_type : jsstring; file_parts : objref }.

Record BlobCommitments := { blob_merkle_root : jsstring; raw_data_size : Z }.

(** The argument of [ShelbyBlobClient.createRegisterBlobPayload]. *)
Record RegisterBlobArgs := {
  arg_account : AccountAddress;
  arg_blobName : jsstring;
  arg_blobMerkleRoot : jsstring;
  arg_numChunksets : Z;
  arg_expirationMicros : Z;
  arg_blobSize : Z
}.

Record Payload := { payload_ref : objref }.
Record RawTransaction := { raw_ref : objref }.
Record Authenticator := { authenticator_ref : objref }.
Record PrivateKeyObj := { key_ref : objref }.
Record SponsorAccount := { sponsor_ref : objref }.
Record Provider := { provider_ref : objref }.

(** What [signTransaction] resolves to; only [authenticator] is read. *)
Record SignedTransaction := { authenticator : Authenticator }.

Record ProviderConfig := {
  erasureN : option Z;
  erasureK : option Z;
  erasureD : option Z
}.

Record BlobMetadata := {
  name : jsstring;
  owner : AccountAddress;
  expirationMicros : Z;
  size : Z
}.

(** [process.env], as far as the code reads it. *)
Record ProcessEnv := { NEXT_PUBLIC_SPONSOR_PRIVATE_KEY : option jsstring }.

(* ===================================================================== *)
(** ** Exceptions, events and the trace *)

Inductive thrown :=
| ErrorObj (message : jsstring)   (* an instance of [Error] *)
| NonError (v : objref).          (* any other thrown value *)

Inductive result (A : Type) :=
| Ok (a : A)
| Throw (e : thrown).

Arguments Ok {A} a.
Arguments Throw {A} e.

(** [err instanceof Error ? err.message : fallback] *)
Definition message_or (fallback : jsstring) (err : thrown) : jsstring :=
  match err with
  | ErrorObj m => m
  | NonError _ => fallback
  end.

(** One external call, with its arguments and its outcome. *)
Inductive Event :=
| EvExpectedTotalChunksets (rawSize : Z) (r : result Z)
| EvCreateRegisterBlobPayload (a : RegisterBlobArgs) (r : result Payload)
| EvSignAndSubmitTransaction (data : Payload) (r : result jsstring)
| EvAptosWaitForTransaction (hash : jsstring) (r : result unit)
| EvFormatPrivateKey (key : option jsstring) (r : result jsstring)
| EvNewEd25519PrivateKey (key : jsstring) (r : result PrivateKeyObj)
| EvAccountFromPrivateKey (key : PrivateKeyObj) (r : result SponsorAccount)
| EvBuildSimple (sender : AccountAddress) (data : Payload)
                (withFeePayer : bool) (r : result RawTransaction)
| EvSignTransaction (raw : RawTransaction) (r : result SignedTransaction)
| EvSignAsFeePayer (signer : SponsorAccount) (raw : RawTransaction)
                   (r : result Authenticator)
| EvSubmitSimple (raw : RawTransaction) (senderAuthenticator : Authenticator)
                 (feePayerAuthenticator : Authenticator) (r : result jsstring)
| EvShelbyWaitForTransaction (hash : jsstring) (r : result unit)
| EvArrayBuffer (f : File) (r : result objref)
| EvClayCreate (cfg : option ProviderConfig) (r : result Provider)
| EvGenerateCommitments (p : Provider) (data : objref) (r : result BlobCommitments)
| EvDateNow (ms : Z)
| EvUploadFileToRcp (f : File) (r : result unit)
| EvOnUploadSuccess (r : result unit)
| EvConsoleError (e : thrown)
| EvAlert (msg : jsstring).

(** State exposed by the hook [useSubmitFileToChain]. *)
Record HookState := { isSubmitting : bool; error : option jsstring }.

(** State of the component [FileUpload] that [uploadFile] writes. *)
Record UiState := {
  isUploading : bool;
  showSuccessDialog : bool;
  transactionHash : jsstring;
  uploadedFileName : jsstring
}.

(** What [uploadFile] reads from its closure: the props and the state of
    the render in which it was created. *)
Record FormInputs := {
  selectedFile : option File;
  account : option AccountInfo;
  wallet : option Wallet;
  location : jsstring;
  date : jsstring;
  id : jsstring;
  duration : Z;
  redundancyLevel : jsstring;
  onUploadSuccess : bool   (* is the optional callback present *)
}.

Record RedundancyOption := {
  opt_value : jsstring;
  erasure_n : Z;
  erasure_k : Z;
  erasure_d : Z
}.

Section Model.

(** Everything outside the code. *)
Variable World : Type.

Record State := {
  world : World;
  trace : list Event;
  hook : HookState;
  ui : UiState
}.

(** The external operations.  Each may change the world and may throw.
    An operation reached through [getAptosClient()] or [getShelbyClient()]
    stands for the whole expression, the lookup of the client included. *)
Record Sdk := {
  sdk_expectedTotalChunksets : Z -> World -> World * result Z;
  sdk_createRegisterBlobPayload : RegisterBlobArgs -> World -> World * result Payload;
  sdk_signAndSubmitTransaction : Payload -> World -> World * result jsstring;
  sdk_aptosWaitForTransaction : jsstring -> World -> World * result unit;
  sdk_formatPrivateKey : option jsstring -> World -> World * result jsstring;
  sdk_newEd25519PrivateKey : jsstring -> World -> World * result PrivateKeyObj;
  sdk_accountFromPrivateKey : PrivateKeyObj -> World -> World * result SponsorAccount;
  sdk_buildSimple : AccountAddress -> Payload -> bool -> World -> World * result RawTransaction;
  sdk_signTransaction : RawTransaction -> World -> World * result SignedTransaction;
  sdk_signAsFeePayer : SponsorAccount -> RawTransaction -> World -> World * result Authenticator;
  sdk_submitSimple : RawTransaction -> Authenticator -> Authenticator -> World -> World * result jsstring;
  sdk_shelbyWaitForTransaction : jsstring -> World -> World * result unit;
  sdk_arrayBuffer : File -> World -> World * result objref;
  sdk_clayCreate : option ProviderConfig -> World -> World * result Provider;
  sdk_generateCommitments : Provider -> objref -> World -> World * result BlobCommitments;
  sdk_dateNow : World -> World * Z;
  sdk_uploadFileToRcp : File -> World -> World * result unit;
  sdk_onUploadSuccess : World -> World * result unit
}.

Variable sdk : Sdk.

(** *** The monad: state, trace and exceptions *)

Definition M (A : Type) : Type := State -> State * result A.

Definition ret {A} (a : A) : M A := fun st => (st, Ok a).

Definition throw {A} (e : thrown) : M A := fun st => (st, Throw e).

Definition bind {A B} (m : M A) (k : A -> M B) : M B :=
  fun st =>
    match m st with
    | (st1, Ok a) => k a st1
    | (st1, Throw e) => (st1, Throw e)
    end.

(** [try { m } catch (err) { h err }] *)
Definition try_catch {A} (m : M A) (h : thrown -> M A) : M A :=
  fun st =>
    match m st with
    | (st1, Ok a) => (st1, Ok a)
    | (st1, Throw e) => h e st1
    end.

(** [try { m } finally { f }]: [f] runs in both cases, and the outcome of
    [m] stands unless [f] throws. *)
Definition try_finally {A} (m : M A) (f : M unit) : M A :=
  fun st =>
    match m st with
    | (st1, r) =>
        match f st1 with
        | (st2, Ok _) => (st2, r)
        | (st2, Throw e) => (st2, Throw e)
        end
    end.

Definition log (st : State) (w : World) (e : Event) : State :=
  {| world := w; trace := trace st ++ [e]; hook := hook st; ui := ui st |}.

(** An external call that may throw. *)
Definition call {A} (op : World -> World * result A)
           (ev : result A -> Event) : M A :=
  fun st => let (w, r) := op (world st) in (log st w (ev r), r).

(** An external call that cannot throw. *)
Definition effect (e : Event) : M unit :=
  fun st => (log st (world st) e, Ok tt).

End Model.

Arguments ret {World A} a.
Arguments throw {World A} e.
Arguments bind {World A B} m k.
Arguments try_catch {World A} m h.
Arguments try_finally {World A} m f.
Arguments call {World A} op ev.
Arguments effect {World} e.

Declare Scope js_scope.
Delimit Scope js_scope with js.
Notation "x <- m ;; k" := (bind m (fun x => k))
  (at level 100, m at next level, right associativity) : js_scope.
Notation "m ;;; k" := (bind m (fun _ => k))
  (at level 100, right associativity) : js_scope.

(* ===================================================================== *)
(** ** The dual-path transaction submitter (hook useSubmitFileToChain) *)

Section Submitter.

Variable World : Type.
Variable sdk : Sdk World.
Variable env : ProcessEnv.

Local Open Scope js_scope.

Definition setIsSubmitting (b : bool) : M World unit :=
  fun st =>
    ({| world := world st; trace := trace st;
        hook := {| isSubmitting := b; error := error (hook st) |};
        ui := ui st |}, Ok tt).

Definition setError (e : option jsstring) : M World unit :=
  fun st =>
    ({| world := world st; trace := trace st;
        hook := {| isSubmitting := isSubmitting (hook st); error := e |};
        ui := ui st |}, Ok tt).

(** [ShelbyBlobClient.createRegisterBlobPayload({...})]: the object
    literal is evaluated field by field, so [expectedTotalChunksets] is
    called before the payload builder. *)
Definition buildPayload (acc : AccountInfo) (commitment : BlobCommitments)
           (file : File) (expirationMicros : Z) : M World Payload :=
  chunksets <- call (sdk_expectedTotalChunksets sdk (raw_data_size commitment))
                    (EvExpectedTotalChunksets (raw_data_size commitment)) ;;
  let args := {| arg_account := address acc;
                 arg_blobName := file_name file;
                 arg_blobMerkleRoot := blob_merkle_root commitment;
                 arg_numChunksets := chunksets;
                 arg_expirationMicros := expirationMicros;
                 arg_blobSize := raw_data_size commitment |} in
  call (sdk_createRegisterBlobPayload sdk args) (EvCreateRegisterBlobPayload args).

(** The branch [if (wallet.isAptosNativeWallet)]. *)
Definition submitNative (payload : Payload) : M World jsstring :=
  hash <- call (sdk_signAndSubmitTransaction sdk payload)
               (EvSignAndSubmitTransaction payload) ;;
  call (sdk_aptosWaitForTransaction sdk hash)
       (EvAptosWaitForTransaction hash) ;;;
  ret hash.

(** The [else] branch: the sponsor account, one raw transaction, the two
    authenticators, one submission. *)
Definition submitSponsored (acc : AccountInfo) (payload : Payload)
  : M World jsstring :=
  formatted <- call (sdk_formatPrivateKey sdk (NEXT_PUBLIC_SPONSOR_PRIVATE_KEY env))
                    (EvFormatPrivateKey (NEXT_PUBLIC_SPONSOR_PRIVATE_KEY env)) ;;
  privateKey <- call (sdk_newEd25519PrivateKey sdk formatted)
                     (EvNewEd25519PrivateKey formatted) ;;
  sponsorAccount <- call (sdk_accountFromPrivateKey sdk privateKey)
                         (EvAccountFromPrivateKey privateKey) ;;
  rawTransaction <- call (sdk_buildSimple sdk (address acc) payload true)
                         (EvBuildSimple (address acc) payload true) ;;
  walletSignedTransaction <- call (sdk_signTransaction sdk rawTransaction)
                                  (EvSignTransaction rawTransaction) ;;
  sponsorAuthenticator <- call (sdk_signAsFeePayer sdk sponsorAccount rawTransaction)
                               (EvSignAsFeePayer sponsorAccount rawTransaction) ;;
  hash <- call (sdk_submitSimple sdk rawTransaction
                  (authenticator walletSignedTransaction) sponsorAuthenticator)
               (EvSubmitSimple rawTransaction
                  (authenticator walletSignedTransaction) sponsorAuthenticator) ;;
  call (sdk_shelbyWaitForTransaction sdk hash)
       (EvShelbyWaitForTransaction hash) ;;;
  ret hash.

(** The body of the [try] block. *)
Definition submitBody (acc : AccountInfo) (w : Wallet)
           (commitment : BlobCommitments) (file : File)
           (expirationMicros : Z) : M World jsstring :=
  payload <- buildPayload acc commitment file expirationMicros ;;
  if isAptosNativeWallet w
  then submitNative payload
  else submitSponsored acc payload.

Definition submitFileToChain (account : option AccountInfo)
           (wallet : option Wallet)
           (commitment : BlobCommitments) (file : File)
           (expirationMicros : Z)
           (erasure_n erasure_k erasure_d : option Z) : M World jsstring :=
  match account, wallet with
  | Some acc, Some w =>
      setIsSubmitting true ;;;
      setError None ;;;
      try_finally
        (try_catch
           (submitBody acc w commitment file expirationMicros)
           (fun err =>
              setError (Some (message_or (of_string "An unknown error occurred") err)) ;;;
              throw err))
        (setIsSubmitting false)
  | _, _ => throw (ErrorObj (of_string "Account and wallet are required"))
  end.

End Submitter.

(* ===================================================================== *)
(** ** The commitment step (utils/encodeFile.ts) *)

(** Truthiness of an optional number: [undefined] and [0] are falsy. *)
Definition truthy (x : option Z) : bool :=
  match x with
  | Some v => negb (v =? 0)%Z
  | None => false
  end.

Definition providerConfig (erasure_n erasure_k erasure_d : option Z)
  : ProviderConfig :=
  {| erasureN := if truthy erasure_n then erasure_n else None;
     erasureK := if truthy erasure_k then erasure_k else None;
     erasureD := if truthy erasure_d then erasure_d else None |}.

(** [Object.keys(providerConfig).length] *)
Definition config_keys (cfg : ProviderConfig) : nat :=
  List.length (filter (fun field : option Z => if field is Some _ then true else false)
                 [erasureN cfg; erasureK cfg; erasureD cfg]).

Section EncodeFile.

Variable World : Type.
Variable sdk : Sdk World.

Local Open Scope js_scope.

Definition encodeFile (file : File) (erasure_n erasure_k erasure_d : option Z)
  : M World BlobCommitments :=
  data <- call (sdk_arrayBuffer sdk file) (EvArrayBuffer file) ;;
  let cfg := providerConfig erasure_n erasure_k erasure_d in
  let arg := if (0 <? config_keys cfg)%nat then Some cfg else None in
  provider <- call (sdk_clayCreate sdk arg) (EvClayCreate arg) ;;
  call (sdk_generateCommitments sdk provider data)
       (EvGenerateCommitments provider data).

End EncodeFile.

(* ===================================================================== *)
(** ** The upload sequencer (component FileUpload) *)

Definition micros_per_second : Z := 1000000.

(** Duration options in microseconds. *)
Definition durationOptions : list (string * Z) :=
  [ ("1 minute", 60 * micros_per_second);
    ("1 hour", 60 * 60 * micros_per_second);
    ("1 day", 24 * 60 * 60 * micros_per_second);
    ("1 week", 7 * 24 * 60 * 60 * micros_per_second);
    ("1 month", 30 * 24 * 60 * 60 * micros_per_second);
    ("1 year", 365 * 24 * 60 * 60 * micros_per_second) ]%Z%string.

Definition redundancyOptions : list RedundancyOption :=
  [ {| opt_value := of_string "economic"; erasure_n := 12; erasure_k := 10; erasure_d := 11 |};
    {| opt_value := of_string "standard"; erasure_n := 16; erasure_k := 10; erasure_d := 13 |};
    {| opt_value := of_string "high"; erasure_n := 20; erasure_k := 10; erasure_d := 15 |} ]%Z.

(** [redundancyOptions[1]], the default. *)
Definition standardOption : RedundancyOption :=
  nth 1 redundancyOptions
      {| opt_value := []; erasure_n := 0; erasure_k := 0; erasure_d := 0 |}%Z.

Definition redundancyConfig (level : jsstring) : RedundancyOption :=
  match find (fun opt => JsString.eqb (opt_value opt) level) redundancyOptions with
  | Some opt => opt
  | None => standardOption
  end.

Definition getFileExtension (selectedFile : option File) : jsstring :=
  match selectedFile with
  | None => []
  | Some f =>
      let parts := split dot (file_name f) in
      if (1 <? List.length parts)%nat then dot :: last parts [] else []
  end.

Definition generateFileName (form : FormInputs) : jsstring :=
  let sanitizedLocation := sanitizeInput (location form) in
  let sanitizedDate := sanitizeInput (date form) in
  let sanitizedId := sanitizeInput (id form) in
  let extension := getFileExtension (selectedFile form) in
  sanitizedLocation ++ [underscore] ++ sanitizedDate ++ [underscore]
  ++ sanitizedId ++ extension.

Definition isFormValid (form : FormInputs) : bool :=
  negb (JsString.eqb (trim (location form)) [])
  && negb (JsString.eqb (trim (date form)) [])
  && negb (JsString.eqb (trim (id form)) []).

(** Milliseconds to microseconds: [Date.now() * 1000]. *)
Definition micros_of_millis (ms : Z) : Z := (ms * 1000)%Z.

Section FileUpload.

Variable World : Type.
Variable sdk : Sdk World.
Variable env : ProcessEnv.

Local Open Scope js_scope.

Definition set_ui (f : UiState -> UiState) : M World unit :=
  fun st =>
    ({| world := world st; trace := trace st; hook := hook st;
        ui := f (ui st) |}, Ok tt).

Definition setIsUploading (b : bool) : M World unit :=
  set_ui (fun u => {| isUploading := b;
                      showSuccessDialog := showSuccessDialog u;
                      transactionHash := transactionHash u;
                      uploadedFileName := uploadedFileName u |}).

Definition setTransactionHash (h : jsstring) : M World unit :=
  set_ui (fun u => {| isUploading := isUploading u;
                      showSuccessDialog := showSuccessDialog u;
                      transactionHash := h;
                      uploadedFileName := uploadedFileName u |}).

Definition setUploadedFileName (n : jsstring) : M World unit :=
  set_ui (fun u => {| isUploading := isUploading u;
                      showSuccessDialog := showSuccessDialog u;
                      transactionHash := transactionHash u;
                      uploadedFileName := n |}).

Definition setShowSuccessDialog (b : bool) : M World unit :=
  set_ui (fun u => {| isUploading := isUploading u;
                      showSuccessDialog := b;
                      transactionHash := transactionHash u;
                      uploadedFileName := uploadedFileName u |}).

(** [Date.now()] *)
Definition dateNow : M World Z :=
  fun st =>
    let (w, ms) := sdk_dateNow sdk (world st) in
    (log st w (EvDateNow ms), Ok ms).

(** The body of the [try] block of [uploadFile]. *)
Definition uploadBody (form : FormInputs) (selected : File) : M World unit :=
  let newFileName := generateFileName form in
  let fileWithNewName :=
    {| file_name := newFileName; file_type := file_type selected;
       file_parts := file_parts selected |} in
  let config := redundancyConfig (redundancyLevel form) in
  commitments <- encodeFile sdk fileWithNewName
                   (Some (erasure_n config)) (Some (erasure_k config))
                   (Some (erasure_d config)) ;;
  now <- dateNow ;;
  let expirationMicros := (micros_of_millis now + duration form)%Z in
  txHash <- submitFileToChain sdk env (account form) (wallet form)
              commitments fileWithNewName expirationMicros
              (Some (erasure_n config)) (Some (erasure_k config))
              (Some (erasure_d config)) ;;
  call (sdk_uploadFileToRcp sdk fileWithNewName)
       (EvUploadFileToRcp fileWithNewName) ;;;
  setTransactionHash txHash ;;;
  setUploadedFileName newFileName ;;;
  setShowSuccessDialog true ;;;
  if onUploadSuccess form
  then call (sdk_onUploadSuccess sdk) EvOnUploadSuccess
  else ret tt.

Definition uploadFile (form : FormInputs) : M World unit :=
  match selectedFile form, account form, wallet form with
  | Some selected, Some _, Some _ =>
      if isFormValid form then
        setIsUploading true ;;;
        try_finally
          (try_catch
             (uploadBody form selected)
             (fun error =>
                effect (EvConsoleError error) ;;;
                effect (EvAlert (of_string "Upload failed: "
                                 ++ message_or (of_string "Unknown error") error))))
          (setIsUploading false)
      else ret tt
  | _, _, _ => ret tt
  end.

End FileUpload.

(* ===================================================================== *)
(** ** The listing (component AccountBlobs) *)

Section Classifier.

Variable World : Type.
Variable sdk : Sdk World.

Local Open Scope js_scope.

(** [isExpired] reads the clock at every call. *)
Definition isExpired (expirationMicros : Z) : M World bool :=
  now <- dateNow sdk ;;
  let currentTimeMicros := micros_of_millis now in
  ret (currentTimeMicros >? expirationMicros)%Z.

(** [Array.prototype.filter] with a callback that has effects: the
    elements are tested in ascending order. *)
Fixpoint filterM {A} (p : A -> M World bool) (l : list A) : M World (list A) :=
  match l with
  | [] => ret []
  | x :: t =>
      keep <- p x ;;
      rest <- filterM p t ;;
      ret (if keep then x :: rest else rest)
  end.

Definition currentBlobs (blobs : list BlobMetadata) : M World (list BlobMetadata) :=
  kept <- filterM (fun blob => e <- isExpired (expirationMicros blob) ;; ret (negb e)) blobs ;;
  ret (rev kept).

Definition expiredBlobs (blobs : list BlobMetadata) : M World (list BlobMetadata) :=
  kept <- filterM (fun blob => isExpired (expirationMicros blob)) blobs ;;
  ret (rev kept).

(** One render: the current view is computed first, then the expired
    view. *)
Definition views (blobs : list BlobMetadata)
  : M World (list BlobMetadata * list BlobMetadata) :=
  current <- currentBlobs blobs ;;
  expired <- expiredBlobs blobs ;;
  ret (current, expired).

End Classifier.

(** *** The fetch effect, as a transition system *)

Module Listing.

Record State := {
  account : option AccountInfo;
  refreshTrigger : option Z;
  blobs : list BlobMetadata;
  (** the calls of [getAccountBlobs] still in flight, oldest first, each
      with the address it was made for *)
  inflight : list AccountAddress
}.

Inductive Event :=
| DepsChanged (account : option AccountInfo) (refreshTrigger : option Z)
| FetchResolved (i : nat) (result : list BlobMetadata)
| FetchRejected (i : nat).

Definition initial : State :=
  {| account := None; refreshTrigger := None; blobs := []; inflight := [] |}.

(** The body of [useEffect]. *)
Definition runEffect (st : State) : State :=
  match account st with
  | None =>
      {| account := account st; refreshTrigger := refreshTrigger st;
         blobs := []; inflight := inflight st |}
  | Some acc =>
      {| account := account st; refreshTrigger := refreshTrigger st;
         blobs := blobs st; inflight := inflight st ++ [address acc] |}
  end.

Fixpoint remove_nth {A} (i : nat) (l : list A) : list A :=
  match l, i with
  | [], _ => []
  | _ :: t, O => t
  | x :: t, S j => x :: remove_nth j t
  end.

Definition step (e : Event) (st : State) : State :=
  match e with
  | DepsChanged a r =>
      runEffect {| account := a; refreshTrigger := r;
                   blobs := blobs st; inflight := inflight st |}
  | FetchResolved i result =>
      match nth_error (inflight st) i with
      | Some _ =>
          {| account := account st; refreshTrigger := refreshTrigger st;
             blobs := result; inflight := remove_nth i (inflight st) |}
      | None => st
      end
  | FetchRejected i =>
      {| account := account st; refreshTrigger := refreshTrigger st;
         blobs := blobs st; inflight := remove_nth i (inflight st) |}
  end.

Definition run (es : list Event) (st : State) : State :=
  fold_left (fun s e => step e s) es st.

(** A displayed blob is stale when it belongs to another account than
    the connected one. *)
Definition stale (st : State) (b : BlobMetadata) : bool :=
  match account st with
  | Some acc => negb (JsString.eqb (owner b) (address acc))
  | None => true
  end.

Definition shows_stale (st : State) : bool := existsb (stale st) (blobs st).

End Listing.

(* ===================================================================== *)
(** ** Predicates used by the statements *)

(** The string does not start with a character of the class. *)
Definition head_not (C : code_unit -> bool) (s : jsstring) : Prop :=
  match s with
  | [] => True
  | c :: _ => C c = false
  end.

(** No two adjacent characters are both in the class. *)
Fixpoint no_run (C : code_unit -> bool) (s : jsstring) : Prop :=
  match s with
  | [] => True
  | c :: t => (C c = true -> head_not C t) /\ no_run C t
  end.

(** The shape of a sanitized field: name characters only, no two hyphens
    in a row, no hyphen at either end. *)
Definition sanitized (s : jsstring) : Prop :=
  Forall (fun c => is_name_char c = true) s
  /\ no_run is_hyphen s
  /\ head_not is_hyphen s
  /\ drop_trailing is_hyphen s = s.

Definition failed {A} (r : result A) : bool :=
  match r with
  | Ok _ => false
  | Throw _ => true
  end.

(** The calls that construct or use the sponsor identity. *)
Definition is_sponsor_event (e : Event) : bool :=
  match e with
  | EvFormatPrivateKey _ _ | EvNewEd25519PrivateKey _ _
  | EvAccountFromPrivateKey _ _ | EvSignAsFeePayer _ _ _ => true
  | _ => false
  end.

(** The request for a detached wallet signature. *)
Definition is_detached_sign (e : Event) : bool :=
  match e with
  | EvSignTransaction _ _ => true
  | _ => false
  end.

(** The fee payer's signature. *)
Definition is_fee_payer_sign (e : Event) : bool :=
  match e with
  | EvSignAsFeePayer _ _ _ => true
  | _ => false
  end.

Definition is_build (e : Event) : bool :=
  match e with
  | EvBuildSimple _ _ _ _ => true
  | _ => false
  end.

Definition is_submit (e : Event) : bool :=
  match e with
  | EvSubmitSimple _ _ _ _ => true
  | _ => false
  end.

(** The calls that reach the wallet, the chain or the storage network. *)
Definition is_remote_call (e : Event) : bool :=
  match e with
  | EvSignAndSubmitTransaction _ _ | EvAptosWaitForTransaction _ _
  | EvBuildSimple _ _ _ _ | EvSignTransaction _ _ | EvSubmitSimple _ _ _ _
  | EvShelbyWaitForTransaction _ _ | EvUploadFileToRcp _ _ => true
  | _ => false
  end.

(** The calls made by [submitFileToChain]. *)
Definition is_chain_event (e : Event) : bool :=
  match e with
  | EvExpectedTotalChunksets _ _ | EvCreateRegisterBlobPayload _ _
  | EvSignAndSubmitTransaction _ _ | EvAptosWaitForTransaction _ _
  | EvFormatPrivateKey _ _ | EvNewEd25519PrivateKey _ _
  | EvAccountFromPrivateKey _ _ | EvBuildSimple _ _ _ _
  | EvSignTransaction _ _ | EvSignAsFeePayer _ _ _
  | EvSubmitSimple _ _ _ _ | EvShelbyWaitForTransaction _ _ => true
  | _ => false
  end.

Definition event_failed (e : Event) : bool :=
  match e with
  | EvExpectedTotalChunksets _ r => failed r
  | EvCreateRegisterBlobPayload _ r => failed r
  | EvSignAndSubmitTransaction _ r => failed r
  | EvAptosWaitForTransaction _ r => failed r
  | EvFormatPrivateKey _ r => failed r
  | EvNewEd25519PrivateKey _ r => failed r
  | EvAccountFromPrivateKey _ r => failed r
  | EvBuildSimple _ _ _ r => failed r
  | EvSignTransaction _ r => failed r
  | EvSignAsFeePayer _ _ r => failed r
  | EvSubmitSimple _ _ _ r => failed r
  | EvShelbyWaitForTransaction _ r => failed r
  | EvArrayBuffer _ r => failed r
  | EvClayCreate _ r => failed r
  | EvGenerateCommitments _ _ r => failed r
  | EvDateNow _ => false
  | EvUploadFileToRcp _ r => failed r
  | EvOnUploadSuccess r => failed r
  | EvConsoleError _ => false
  | EvAlert _ => false
  end.

Definition chain_step_failed (tr : list Event) : bool :=
  existsb (fun e => is_chain_event e && event_failed e) tr.

Definition is_upload (e : Event) : bool :=
  match e with
  | EvUploadFileToRcp _ _ => true
  | _ => false
  end.

Definition is_refresh (e : Event) : bool :=
  match e with
  | EvOnUploadSuccess _ => true
  | _ => false
  end.

Definition upload_failed (tr : list Event) : bool :=
  existsb (fun e => is_upload e && event_failed e) tr.


(** The chain reported finality for [hash]. *)
Definition finalized (hash : jsstring) (e : Event) : Prop :=
  e = EvAptosWaitForTransaction hash (Ok tt)
  \/ e = EvShelbyWaitForTransaction hash (Ok tt).

(** What the success dialog shows. *)
Definition success_report (u : UiState) : bool * jsstring * jsstring :=
  (showSuccessDialog u, transactionHash u, uploadedFileName u).

(** The clock reads [now] whenever it is read. *)
Definition frozen_clock {World} (sdk : Sdk World) (now : Z) : Prop :=
  forall w, snd (sdk_dateNow sdk w) = now.

(** The largest integer below which every integer is a double. *)
Definition MAX_SAFE_INTEGER : Z := 2 ^ 53 - 1.

(* ===================================================================== *)
(** ** A scripted world, for running the model *)

Module Demo.

Local Open Scope Z_scope.

Record World := {
  clock : Z;              (* what [Date.now()] returns next, in ms *)
  tick : Z;               (* by how much the clock advances per reading *)
  next_ref : N;           (* the next fresh object reference *)
  wallet_rejects : bool;  (* the user rejects every signing request *)
  sdk_validates : bool    (* the payload builder rejects an empty name *)
}.

Definition fresh {A} (mk : objref -> A) (w : World) : World * result A :=
  ({| clock := clock w; tick := tick w; next_ref := (next_ref w + 1)%N;
      wallet_rejects := wallet_rejects w; sdk_validates := sdk_validates w |},
   Ok (mk (next_ref w))).

Definition hash : jsstring := of_string "0xabc".

Definition rejected : thrown := ErrorObj (of_string "User rejected the request").

Definition invalid_name : thrown := ErrorObj (of_string "Invalid blob name").

(** The scripted operations, for a given clock. *)
Definition sdk_with (dateNow : World -> World * Z) : Sdk World :=
  {| sdk_expectedTotalChunksets := fun _ w => (w, Ok 1%Z);
     sdk_createRegisterBlobPayload := fun a w =>
       if sdk_validates w && JsString.eqb (arg_blobName a) []
       then (w, Throw invalid_name)
       else fresh Build_Payload w;
     sdk_signAndSubmitTransaction := fun _ w =>
       if wallet_rejects w then (w, Throw rejected) else (w, Ok hash);
     sdk_aptosWaitForTransaction := fun _ w => (w, Ok tt);
     sdk_formatPrivateKey := fun key w =>
       match key with
       | Some k => (w, Ok k)
       | None => (w, Throw (ErrorObj (of_string "Invalid private key")))
       end;
     sdk_newEd25519PrivateKey := fun _ w => fresh Build_PrivateKeyObj w;
     sdk_accountFromPrivateKey := fun _ w => fresh Build_SponsorAccount w;
     sdk_buildSimple := fun _ _ _ w => fresh Build_RawTransaction w;
     sdk_signTransaction := fun _ w =>
       if wallet_rejects w then (w, Throw rejected)
       else fresh (fun r => Build_SignedTransaction (Build_Authenticator r)) w;
     sdk_signAsFeePayer := fun _ _ w => fresh Build_Authenticator w;
     sdk_submitSimple := fun _ _ _ w => (w, Ok hash);
     sdk_shelbyWaitForTransaction := fun _ w => (w, Ok tt);
     sdk_arrayBuffer := fun f w => (w, Ok (file_parts f));
     sdk_clayCreate := fun _ w => fresh Build_Provider w;
     sdk_generateCommitments := fun _ _ w =>
       (w, Ok {| blob_merkle_root := of_string "0xroot"; raw_data_size := 3 |});
     sdk_dateNow := dateNow;
     sdk_uploadFileToRcp := fun _ w => (w, Ok tt);
     sdk_onUploadSuccess := fun w => (w, Ok tt) |}.

(** The clock of the world: each reading advances it by [tick]. *)
Definition sdk : Sdk World :=
  sdk_with (fun w =>
    ({| clock := clock w + tick w; tick := tick w; next_ref := next_ref w;
        wallet_rejects := wallet_rejects w;
        sdk_validates := sdk_validates w |}, clock w)).

(** A clock stopped at [now]. *)
Definition frozen_sdk (now : Z) : Sdk World := sdk_with (fun w => (w, now)).

Definition world0 : World :=
  {| clock := 1700000000000; tick := 0; next_ref := 0%N;
     wallet_rejects := false; sdk_validates := false |}.

Definition start (w : World) : State World :=
  {| world := w; trace := [];
     hook := {| isSubmitting := false; error := None |};
     ui := {| isUploading := false; showSuccessDialog := false;
              transactionHash := []; uploadedFileName := [] |} |}.

Definition env : ProcessEnv :=
  {| NEXT_PUBLIC_SPONSOR_PRIVATE_KEY := Some (of_string "0x01") |}.

Definition alice : AccountInfo := {| address := of_string "0xa11ce" |}.
Definition bob : AccountInfo := {| address := of_string "0xb0b" |}.

Definition native : Wallet := {| isAptosNativeWallet := true |}.
Definition foreign : Wallet := {| isAptosNativeWallet := false |}.

Definition photo : File :=
  {| file_name := of_string "Paris_2024-05-01_7.jpg";
     file_type := of_string "image/jpeg"; file_parts := 100%N |}.

Definition commitment : BlobCommitments :=
  {| blob_merkle_root := of_string "0xroot"; raw_data_size := 3 |}.

Definition form : FormInputs :=
  {| selectedFile := Some {| file_name := of_string "a.jpg";
                             file_type := of_string "image/jpeg";
                             file_parts := 100%N |};
     account := Some alice; wallet := Some native;
     location := of_string "Paris"; date := of_string "2024-05-01";
     id := of_string "7";
     duration := 24 * 60 * 60 * micros_per_second;
     redundancyLevel := of_string "standard";
     onUploadSuccess := true |}.

(** The world in which the clock advances by one millisecond at every
    reading. *)
Definition ticking : World :=
  {| clock := clock world0; tick := 1; next_ref := 0%N;
     wallet_rejects := false; sdk_validates := false |}.

(** The world in which the user rejects every signing request. *)
Definition rejecting : World :=
  {| clock := clock world0; tick := 0; next_ref := 0%N;
     wallet_rejects := true; sdk_validates := false |}.


(** A blob of alice that expires at the very instant of [world0]. *)
Definition tie_blob : BlobMetadata :=
  {| name := of_string "Paris_2024-05-01_7.jpg"; owner := address alice;
     expirationMicros := clock world0 * 1000; size := 3 |}.



End Demo.


(* ===================================================================== *)
(** ** Further parts of the components *)

(** *** AccountBlobs: file names of blobs *)

Definition slash : code_unit := 47%N.

(** [blobName.split("/").pop() || blobName]: the last segment, or the whole
    name when the last segment is empty. *)
Definition extractFileName (blobName : jsstring) : jsstring :=
  match last (split slash blobName) [] with
  | [] => blobName
  | segment => segment
  end.

Definition imageExtensions : list jsstring :=
  map of_string ["jpg"; "jpeg"; "png"; "gif"; "webp"]%string.

Section IsImageFile.

(** [String.prototype.toLowerCase], which this code does not define. *)
Variable toLowerCase : jsstring -> jsstring.

Definition isImageFile (filename : jsstring) : bool :=
  let extension := toLowerCase (last (split dot filename) []) in
  match extension with
  | [] => false
  | _ => existsb (JsString.eqb extension) imageExtensions
  end.

End IsImageFile.

(** *** CityPicker *)

(** A city of the package country-state-city, as far as it is read. *)
Record City := {
  city_name : jsstring;
  city_countryCode : jsstring;
  city_stateCode : jsstring
}.

Record CityEntry := {
  entry_name : jsstring;
  entry_country : jsstring;
  entry_state : jsstring;
  entry_displayName : jsstring
}.

Definition formatCity (city : City) : CityEntry :=
  {| entry_name := city_name city;
     entry_country := city_countryCode city;
     entry_state := city_stateCode city;
     entry_displayName :=
       city_name city ++ of_string ", "
       ++ (match city_stateCode city with
           | [] => []
           | _ => city_stateCode city ++ of_string ", "
           end)
       ++ city_countryCode city |}.

Definition allCities (cities : list City) : list CityEntry :=
  map formatCity cities.

(** [s.startsWith(p)] *)
Fixpoint startsWith (s p : jsstring) : bool :=
  match p, s with
  | [], _ => true
  | _ :: _, [] => false
  | c :: p', d :: s' => (c =? d)%N && startsWith s' p'
  end.

(** [s.includes(p)]: [p] occurs in [s] as a run of code units. *)
Fixpoint includes (s p : jsstring) : bool :=
  startsWith s p
  || match s with
     | [] => false
     | _ :: t => includes t p
     end.

Section CityPicker.

Variable toLowerCase : jsstring -> jsstring.

Definition cityMatches (lowerSearch : jsstring) (city : CityEntry) : bool :=
  includes (toLowerCase (entry_name city)) lowerSearch
  || includes (toLowerCase (entry_country city)) lowerSearch.

Definition filteredCities (searchTerm : jsstring) (all : list CityEntry)
  : list CityEntry :=
  match searchTerm with
  | [] => firstn 100 all
  | _ =>
      let lowerSearch := toLowerCase searchTerm in
      firstn 100 (filter (cityMatches lowerSearch) all)
  end.

End CityPicker.

(** *** FileUpload: the form and its reset *)

(** The state of the form that [resetForm] writes. *)
Record FormState := {
  fs_selectedFile : option File;
  fs_filePreviewUrl : option jsstring;
  fs_imageDimensions : option (Z * Z);
  fs_location : jsstring;
  fs_date : jsstring;
  fs_id : jsstring;
  fs_duration : Z;
  fs_redundancyLevel : jsstring
}.


(** The default of the duration: one day. *)
Definition defaultDuration : Z := 24 * 60 * 60 * micros_per_second.



(** *** Predicates of the further statements *)

(** Letters, digits and underscore: the characters the sanitizer keeps. *)
Definition is_word_char (c : code_unit) : bool :=
  is_name_char c && negb (is_hyphen c).

(** What a call threw, if it threw. *)
Definition thrown_of {A} (r : result A) : option thrown :=
  match r with
  | Ok _ => None
  | Throw e => Some e
  end.

Definition event_error (e : Event) : option thrown :=
  match e with
  | EvExpectedTotalChunksets _ r => thrown_of r
  | EvCreateRegisterBlobPayload _ r => thrown_of r
  | EvSignAndSubmitTransaction _ r => thrown_of r
  | EvAptosWaitForTransaction _ r => thrown_of r
  | EvFormatPrivateKey _ r => thrown_of r
  | EvNewEd25519PrivateKey _ r => thrown_of r
  | EvAccountFromPrivateKey _ r => thrown_of r
  | EvBuildSimple _ _ _ r => thrown_of r
  | EvSignTransaction _ r => thrown_of r
  | EvSignAsFeePayer _ _ r => thrown_of r
  | EvSubmitSimple _ _ _ r => thrown_of r
  | EvShelbyWaitForTransaction _ r => thrown_of r
  | EvArrayBuffer _ r => thrown_of r
  | EvClayCreate _ r => thrown_of r
  | EvGenerateCommitments _ _ r => thrown_of r
  | EvDateNow _ => None
  | EvUploadFileToRcp _ r => thrown_of r
  | EvOnUploadSuccess r => thrown_of r
  | EvConsoleError _ => None
  | EvAlert _ => None
  end.

Definition is_alert (e : Event) : bool :=
  match e with
  | EvAlert _ => true
  | _ => false
  end.

(** The three erasure-coding shapes the form offers. *)
Definition offered_shape (n k d : Z) : Prop :=
  (n = 12 /\ k = 10 /\ d = 11)%Z
  \/ (n = 16 /\ k = 10 /\ d = 13)%Z
  \/ (n = 20 /\ k = 10 /\ d = 15)%Z.

(** *** Sample values *)

Module Sample.

(** Lower case of the letters A to Z, other code units unchanged. *)
Definition lowerAscii (s : jsstring) : jsstring :=
  map (fun c => if ((65 <=? c) && (c <=? 90))%N then (c + 32)%N else c) s.

Definition paris : City :=
  {| city_name := of_string "Paris"; city_countryCode := of_string "FR";
     city_stateCode := of_string "IDF" |}.

Definition parma : City :=
  {| city_name := of_string "Parma"; city_countryCode := of_string "IT";
     city_stateCode := [] |}.

Definition oslo : City :=
  {| city_name := of_string "Oslo"; city_countryCode := of_string "NO";
     city_stateCode := of_string "03" |}.

Definition cities : list CityEntry := allCities [paris; parma; oslo].

Definition filled : FormState :=
  {| fs_selectedFile := Some Demo.photo;
     fs_filePreviewUrl := Some (of_string "blob:1");
     fs_imageDimensions := Some (640, 480)%Z;
     fs_location := of_string "Paris"; fs_date := of_string "2024-05-01";
     fs_id := of_string "7"; fs_duration := 60 * micros_per_second;
     fs_redundancyLevel := of_string "high" |}.

Definition shown : UiState :=
  {| isUploading := false; showSuccessDialog := true;
     transactionHash := Demo.hash;
     uploadedFileName := of_string "Paris_2024-05-01_7.jpg" |}.

(** A form that passes the checks but whose file is missing. *)
Definition no_file : FormInputs :=
  {| selectedFile := None; account := Some Demo.alice;
     wallet := Some Demo.native;
     location := of_string "Paris"; date := of_string "2024-05-01";
     id := of_string "7"; duration := defaultDuration;
     redundancyLevel := of_string "standard"; onUploadSuccess := true |}.

(** The demo form with a wallet that cannot submit by itself. *)
Definition sponsored_form : FormInputs :=
  {| selectedFile := selectedFile Demo.form; account := Some Demo.alice;
     wallet := Some Demo.foreign;
     location := location Demo.form; date := date Demo.form;
     id := id Demo.form; duration := duration Demo.form;
     redundancyLevel := of_string "unknown"; onUploadSuccess := true |}.

(** The scripted operations with a commitment generator that fails. *)
Definition failing_encoder : Sdk Demo.World :=
  {| sdk_expectedTotalChunksets := sdk_expectedTotalChunksets Demo.sdk;
     sdk_createRegisterBlobPayload := sdk_createRegisterBlobPayload Demo.sdk;
     sdk_signAndSubmitTransaction := sdk_signAndSubmitTransaction Demo.sdk;
     sdk_aptosWaitForTransaction := sdk_aptosWaitForTransaction Demo.sdk;
     sdk_formatPrivateKey := sdk_formatPrivateKey Demo.sdk;
     sdk_newEd25519PrivateKey := sdk_newEd25519PrivateKey Demo.sdk;
     sdk_accountFromPrivateKey := sdk_accountFromPrivateKey Demo.sdk;
     sdk_buildSimple := sdk_buildSimple Demo.sdk;
     sdk_signTransaction := sdk_signTransaction Demo.sdk;
     sdk_signAsFeePayer := sdk_signAsFeePayer Demo.sdk;
     sdk_submitSimple := sdk_submitSimple Demo.sdk;
     sdk_shelbyWaitForTransaction := sdk_shelbyWaitForTransaction Demo.sdk;
     sdk_arrayBuffer := sdk_arrayBuffer Demo.sdk;
     sdk_clayCreate := sdk_clayCreate Demo.sdk;
     sdk_generateCommitments := fun _ _ w =>
       (w, Throw (ErrorObj (of_string "Encoding failed")));
     sdk_dateNow := sdk_dateNow Demo.sdk;
     sdk_uploadFileToRcp := sdk_uploadFileToRcp Demo.sdk;
     sdk_onUploadSuccess := sdk_onUploadSuccess Demo.sdk |}.

(** The scripted operations with a refresh callback that throws. *)
Definition failing_refresh : Sdk Demo.World :=
  {| sdk_expectedTotalChunksets := sdk_expectedTotalChunksets Demo.sdk;
     sdk_createRegisterBlobPayload := sdk_createRegisterBlobPayload Demo.sdk;
     sdk_signAndSubmitTransaction := sdk_signAndSubmitTransaction Demo.sdk;
     sdk_aptosWaitForTransaction := sdk_aptosWaitForTransaction Demo.sdk;
     sdk_formatPrivateKey := sdk_formatPrivateKey Demo.sdk;
     sdk_newEd25519PrivateKey := sdk_newEd25519PrivateKey Demo.sdk;
     sdk_accountFromPrivateKey := sdk_accountFromPrivateKey Demo.sdk;
     sdk_buildSimple := sdk_buildSimple Demo.sdk;
     sdk_signTransaction := sdk_signTransaction Demo.sdk;
     sdk_signAsFeePayer := sdk_signAsFeePayer Demo.sdk;
     sdk_submitSimple := sdk_submitSimple Demo.sdk;
     sdk_shelbyWaitForTransaction := sdk_shelbyWaitForTransaction Demo.sdk;
     sdk_arrayBuffer := sdk_arrayBuffer Demo.sdk;
     sdk_clayCreate := sdk_clayCreate Demo.sdk;
     sdk_generateCommitments := sdk_generateCommitments Demo.sdk;
     sdk_dateNow := sdk_dateNow Demo.sdk;
     sdk_uploadFileToRcp := sdk_uploadFileToRcp Demo.sdk;
     sdk_onUploadSuccess := fun w =>
       (w, Throw (ErrorObj (of_string "Refresh failed"))) |}.

(** An environment without the sponsor key. *)
Definition no_key : ProcessEnv := {| NEXT_PUBLIC_SPONSOR_PRIVATE_KEY := None |}.

End Sample.

(* ===================================================================== *)
(** * Properties *)

(** ** The sanitizer *)

Example sanitize_city :
  sanitizeInput (of_string "  New  York, NY ") = of_string "New-York-NY".
Proof. reflexivity. Qed.

Example sanitize_hyphens :
  sanitizeInput (of_string "--a__b--c--") = of_string "a__b-c".
Proof. reflexivity. Qed.

Section SanitizerFacts.

Variable C : code_unit -> bool.

Lemma replace_runs_fixed r b s :
  Forall (fun c => C c = false) s -> replace_runs C r b s = s.
Proof.
  intros H. revert b. induction H as [|c t Hc _ IH]; intros b; simpl.
  - reflexivity.
  - rewrite Hc, IH. reflexivity.
Qed.

Lemma replace_each_fixed r s :
  Forall (fun c => C c = false) s -> replace_each C r s = s.
Proof.
  induction 1 as [|c t Hc _ IH]; simpl.
  - reflexivity.
  - rewrite Hc, IH. reflexivity.
Qed.

Lemma replace_each_forall (P : code_unit -> Prop) h s :
  P h -> (forall c, C c = false -> P c) ->
  Forall P (replace_each C [h] s).
Proof.
  intros Hh HP. induction s as [|c t IH]; simpl.
  - constructor.
  - destruct (C c) eqn:E; simpl; constructor; auto.
Qed.

Lemma replace_runs_forall (P : code_unit -> Prop) h b s :
  P h -> Forall P s -> Forall P (replace_runs C [h] b s).
Proof.
  intros Hh H. revert b. induction H as [|c t Hc _ IH]; intros b; simpl.
  - constructor.
  - destruct (C c); [destruct b|]; simpl; auto.
Qed.

(** After the collapse no two characters of the class are adjacent; when
    the scan starts inside a run, the output does not start in the
    class. *)
Lemma replace_runs_no_run h b s :
  C h = true ->
  no_run C (replace_runs C [h] b s)
  /\ (b = true -> head_not C (replace_runs C [h] b s)).
Proof.
  intros Hh. revert b. induction s as [|c t IH]; intros b; simpl.
  - auto.
  - destruct (C c) eqn:E.
    + destruct b; simpl.
      * apply IH.
      * split; [|discriminate]. split; [intros _|]; apply IH; reflexivity.
    + simpl. split; [|intros _; exact E].
      split; [congruence|apply IH].
Qed.

Lemma replace_runs_fixed_no_run h b s :
  (forall c, C c = true -> c = h) ->
  no_run C s -> (b = true -> head_not C s) ->
  replace_runs C [h] b s = s.
Proof.
  intros Hh. revert b. induction s as [|c t IH]; intros b Hn Hb; simpl.
  - reflexivity.
  - destruct Hn as [Hadj Hn]. destruct (C c) eqn:E.
    + destruct b.
      * specialize (Hb eq_refl). simpl in Hb. congruence.
      * simpl. rewrite IH by auto. f_equal. symmetry. apply Hh, E.
    + f_equal. apply IH; [assumption|discriminate].
Qed.

Lemma drop_leading_forall (P : code_unit -> Prop) s :
  Forall P s -> Forall P (drop_leading C s).
Proof.
  induction 1 as [|c t Hc Ht IH]; simpl.
  - constructor.
  - destruct (C c); [assumption|constructor; assumption].
Qed.

Lemma drop_leading_no_run D s : no_run D s -> no_run D (drop_leading C s).
Proof.
  induction s as [|c t IH]; simpl; intros H.
  - exact I.
  - destruct (C c); [apply IH; apply H|exact H].
Qed.

Lemma drop_leading_head s : head_not C (drop_leading C s).
Proof.
  induction s as [|c t IH]; simpl.
  - exact I.
  - destruct (C c) eqn:E; [exact IH|exact E].
Qed.

Lemma drop_leading_fixed s : head_not C s -> drop_leading C s = s.
Proof. destruct s as [|c t]; simpl; intros H; [|rewrite H]; reflexivity. Qed.

(** [drop_trailing] keeps the first character of what it returns. *)
Lemma drop_trailing_head D s : head_not D s -> head_not D (drop_trailing C s).
Proof.
  destruct s as [|c t]; simpl; intros H.
  - exact I.
  - destruct (drop_trailing C t); [destruct (C c)|]; simpl; auto.
Qed.

Lemma drop_trailing_forall (P : code_unit -> Prop) s :
  Forall P s -> Forall P (drop_trailing C s).
Proof.
  induction 1 as [|c t Hc Ht IH]; simpl.
  - constructor.
  - destruct (drop_trailing C t); [destruct (C c)|]; auto.
Qed.

Lemma drop_trailing_no_run D s : no_run D s -> no_run D (drop_trailing C s).
Proof.
  induction s as [|c t IH]; simpl; intros H.
  - exact I.
  - destruct H as [Hadj Hn].
    assert (Hh : D c = true -> head_not D (drop_trailing C t))
      by (intros E; apply drop_trailing_head; auto).
    specialize (IH Hn).
    destruct (drop_trailing C t); [destruct (C c)|]; simpl; auto.
Qed.

Lemma drop_trailing_idem s :
  drop_trailing C (drop_trailing C s) = drop_trailing C s.
Proof.
  induction s as [|c t IH]; simpl.
  - reflexivity.
  - destruct (drop_trailing C t) as [|d t'] eqn:E.
    + destruct (C c) eqn:Ec; simpl; [|rewrite Ec]; reflexivity.
    + change (drop_trailing C (c :: d :: t')) with
        (match drop_trailing C (d :: t') with
         | [] => if C c then [] else [c]
         | x :: l => c :: x :: l
         end).
      rewrite IH. reflexivity.
Qed.

End SanitizerFacts.

(** Splits boolean tests on code units found among the hypotheses. *)
Ltac bool_hyps :=
  repeat match goal with
    | H : _ || _ = true |- _ => apply orb_true_iff in H; destruct H
    | H : _ && _ = true |- _ => apply andb_true_iff in H; destruct H
    | H : (_ =? _)%N = true |- _ => apply N.eqb_eq in H
    | H : (_ <=? _)%N = true |- _ => apply N.leb_le in H
    end.

Lemma name_char_not_space c : is_name_char c = true -> is_space c = false.
Proof.
  intros H. destruct (is_space c) eqn:E; [exfalso|reflexivity].
  unfold is_name_char, is_space, hyphen, underscore in *.
  bool_hyps; lia.
Qed.

Lemma is_hyphen_eq c : is_hyphen c = true -> c = hyphen.
Proof. unfold is_hyphen. apply N.eqb_eq. Qed.

Lemma sanitizeInput_sanitized s : sanitized (sanitizeInput s).
Proof.
  unfold sanitizeInput, strip_ends.
  set (s1 := replace_runs is_space [hyphen] false s).
  set (s2 := replace_each (fun c => negb (is_name_char c)) [hyphen] s1).
  set (s3 := replace_runs is_hyphen [hyphen] false s2).
  assert (F2 : Forall (fun c => is_name_char c = true) s2).
  { apply replace_each_forall; [reflexivity|].
    intros c H. now apply negb_false_iff in H. }
  assert (F3 : Forall (fun c => is_name_char c = true) s3)
    by (apply replace_runs_forall; [reflexivity|exact F2]).
  assert (N3 : no_run is_hyphen s3)
    by (apply (replace_runs_no_run is_hyphen hyphen false s2); reflexivity).
  repeat split.
  - apply drop_trailing_forall, drop_leading_forall, F3.
  - apply drop_trailing_no_run, drop_leading_no_run, N3.
  - apply drop_trailing_head, drop_leading_head.
  - apply drop_trailing_idem.
Qed.

Lemma sanitizeInput_fixed s : sanitized s -> sanitizeInput s = s.
Proof.
  intros (F & Nr & Hd & Tl). unfold sanitizeInput, strip_ends.
  rewrite (replace_runs_fixed is_space).
  2:{ eapply Forall_impl; [|exact F]. apply name_char_not_space. }
  rewrite replace_each_fixed.
  2:{ eapply Forall_impl; [|exact F]. intros c H. cbv beta. now rewrite H. }
  rewrite (@replace_runs_fixed_no_run is_hyphen hyphen false);
    [|exact is_hyphen_eq|exact Nr|discriminate].
  rewrite drop_leading_fixed by exact Hd. exact Tl.
Qed.

(** C10. The filename-field sanitizer is idempotent: sanitizing a string
    that is already the result of the sanitizer changes nothing. *)
Theorem sanitizeInput_idempotent (s : jsstring) :
  sanitizeInput (sanitizeInput s) = sanitizeInput s.
Proof. apply sanitizeInput_fixed, sanitizeInput_sanitized. Qed.

(** A filename built from sanitized fields is rebuilt unchanged when its
    fields are sanitized again. *)
Lemma generateFileName_resanitized form :
  generateFileName
    {| selectedFile := selectedFile form; account := account form;
       wallet := wallet form;
       location := sanitizeInput (location form);
       date := sanitizeInput (date form);
       id := sanitizeInput (id form);
       duration := duration form; redundancyLevel := redundancyLevel form;
       onUploadSuccess := onUploadSuccess form |}
  = generateFileName form.
Proof.
  unfold generateFileName. simpl.
  now rewrite !(sanitizeInput_fixed (sanitizeInput_sanitized _)).
Qed.

(* ===================================================================== *)
(** ** The submitter *)

Example demo_native_run :
  let out := submitFileToChain Demo.sdk Demo.env (Some Demo.alice)
               (Some Demo.native) Demo.commitment Demo.photo 5 None None None
               (Demo.start Demo.world0) in
  snd out = Ok Demo.hash /\ List.length (trace (fst out)) = 4%nat.
Proof. vm_compute. split; reflexivity. Qed.

Example demo_sponsored_run :
  let out := submitFileToChain Demo.sdk Demo.env (Some Demo.alice)
               (Some Demo.foreign) Demo.commitment Demo.photo 5 None None None
               (Demo.start Demo.world0) in
  snd out = Ok Demo.hash /\ List.length (trace (fst out)) = 10%nat.
Proof. vm_compute. split; reflexivity. Qed.

(** Unfolds the monad and the submitter down to the external calls. *)
Ltac unfold_submitter :=
  unfold submitFileToChain, try_finally, try_catch, submitBody, buildPayload,
    submitNative, submitSponsored, bind, call, effect, setIsSubmitting,
    setError, ret, throw, log; simpl.

(** Case analysis on the outcome of the next external call: the first one
    whose world argument is already known. *)
Ltac known_world w :=
  first [ is_var w | lazymatch w with world ?s => is_var s end ].

Ltac next_call :=
  match goal with
  | |- context [match ?f ?w with pair _ _ => _ end] =>
      known_world w;
      lazymatch type of (f w) with
      | (_ * result _)%type => destruct (f w) as [? [?|?]] eqn:?; simpl
      | (_ * _)%type => destruct (f w) as [? ?] eqn:?; simpl
      end
  end.

Arguments of_string : simpl never.

Section SubmitterFacts.

Variable World : Type.
Variable sdk : Sdk World.

(** C9. Called while the account or the wallet is absent, the submitter
    throws before it touches any state: the whole state, and so the
    in-progress flag and the last error, is what it was.  Every other
    failure leaves the message of the error in [error] and the flag
    reset. *)
Theorem guard_failure_keeps_state env account wallet c f e n k d st st' r :
  submitFileToChain sdk env account wallet c f e n k d st = (st', r) ->
  match account, wallet with
  | Some _, Some _ =>
      forall err, r = Throw err ->
        error (hook st')
        = Some (message_or (of_string "An unknown error occurred") err)
        /\ isSubmitting (hook st') = false
  | _, _ =>
      st' = st
      /\ r = Throw (ErrorObj (of_string "Account and wallet are required"))
      /\ isSubmitting (hook st') = isSubmitting (hook st)
      /\ error (hook st') = error (hook st)
  end.
Proof.
  destruct account as [acc|], wallet as [w|];
    try (unfold submitFileToChain, throw; intros H; injection H as <- <-;
         repeat split; reflexivity).
  unfold_submitter.
  destruct (isAptosNativeWallet w); repeat next_call;
    intros H; injection H as <- <-; intros err Herr;
    try discriminate; injection Herr as <-; split; reflexivity.
Qed.

(** C5. On the native path the submitter makes no call that constructs
    or uses the sponsor identity and requests no detached signature, and
    the whole outcome (final state and returned hash) is the same for any
    two sponsor credentials. *)
Theorem native_path_ignores_sponsor env env' acc w c f e n k d st :
  isAptosNativeWallet w = true ->
  submitFileToChain sdk env (Some acc) (Some w) c f e n k d st
  = submitFileToChain sdk env' (Some acc) (Some w) c f e n k d st
  /\ exists tr,
      trace (fst (submitFileToChain sdk env (Some acc) (Some w) c f e n k d st))
      = trace st ++ tr
      /\ forallb (fun ev => negb (is_sponsor_event ev || is_detached_sign ev
                                  || is_build ev || is_submit ev)) tr = true.
Proof.
  intros Hw. split.
  - unfold submitFileToChain, submitBody. rewrite Hw. reflexivity.
  - unfold_submitter. rewrite Hw.
    repeat next_call; rewrite <- ?app_assoc; simpl;
      eexists; (split; [reflexivity|reflexivity]).
Qed.



End SubmitterFacts.

(* ===================================================================== *)
(** ** The upload sequencer *)

Arguments generateFileName : simpl never.
Arguments redundancyConfig : simpl never.
Arguments isFormValid : simpl never.

Ltac unfold_uploader :=
  unfold uploadFile, uploadBody, encodeFile, dateNow, setIsUploading,
    setTransactionHash, setUploadedFileName, setShowSuccessDialog, set_ui;
  unfold_submitter.

Section UploadFacts.

Variable World : Type.
Variable sdk : Sdk World.

(** Every run ends in one of the leaves of the call tree. *)
Ltac upload_leaves form :=
  destruct form as [sel acct wal loc dt i dur lvl cb];
  unfold_uploader;
  destruct sel as [sel|], acct as [acct|], wal as [[native]|]; simpl;
  try destruct (isFormValid _); simpl;
  try destruct native; try destruct cb; simpl;
  repeat next_call;
  repeat match goal with u : unit |- _ => destruct u end;
  intros H; injection H as <- <-;
  simpl; rewrite <- ?app_assoc; simpl;
  first [ eexists; split; [reflexivity|]
        | exists []; split; [symmetry; apply app_nil_r|] ].

(** C2. [uploadFile] never throws.  When a call of the chain step fails,
    or the storage upload fails, the success dialog, the transaction
    hash and the uploaded file name are what they were and the listing
    is not refreshed; when a call of the chain step fails, the storage
    upload is not called at all.  Whenever the success report changes or
    the listing is refreshed, the run consists of calls that all
    succeeded up to the finality wait, then the one storage upload, which
    succeeded, and after it no call of the chain step and no second
    upload; the dialog then shows the finalized hash and the generated
    file name. *)
Theorem upload_only_after_chain_success env form st st' r :
  uploadFile sdk env form st = (st', r) ->
  exists tr,
    trace st' = trace st ++ tr
    /\ r = Ok tt
    /\ (chain_step_failed tr = true -> existsb is_upload tr = false)
    /\ (chain_step_failed tr = true \/ upload_failed tr = true ->
          success_report (ui st') = success_report (ui st)
          /\ existsb is_refresh tr = false)
    /\ (success_report (ui st') <> success_report (ui st)
        \/ existsb is_refresh tr = true ->
          exists pre hash final file post,
            tr = pre ++ [final; EvUploadFileToRcp file (Ok tt)] ++ post
            /\ finalized hash final
            /\ existsb event_failed (pre ++ [final]) = false
            /\ existsb is_upload (pre ++ post) = false
            /\ existsb is_chain_event post = false
            /\ file_name file = generateFileName form
            /\ success_report (ui st')
               = (true, hash, generateFileName form)).
Proof.
  upload_leaves form;
    (split; [reflexivity|]);
    (split; [intros Hf; try discriminate; reflexivity|]);
    (split; [intros [Hf|Hf]; try discriminate; split; reflexivity|]);
    intros [Hs|Hs]; try discriminate; try (exfalso; apply Hs; reflexivity);
    first [ eexists [_; _; _; _; _; _; _]; do 4 eexists;
            split; [simpl; reflexivity|]
          | eexists [_; _; _; _; _; _; _; _; _; _; _; _; _]; do 4 eexists;
            split; [simpl; reflexivity|] ];
    (split; [first [left; reflexivity | right; reflexivity]|]);
    repeat split.
Qed.


End UploadFacts.

(** The durations offered by the form are numbers of seconds times one
    million. *)
Lemma durationOptions_in_microseconds :
  map snd durationOptions
  = map (fun seconds => seconds * 1000000)%Z
        [60; 3600; 86400; 604800; 2592000; 31536000]%Z.
Proof. reflexivity. Qed.

(** Up to the year 2248 the expiration computed by [uploadFile] for any of
    the offered durations is an integer that a double represents
    exactly. *)
Lemma expiration_is_safe_integer (now dur : Z) :
  (0 <= now < 2 ^ 43)%Z -> In dur (map snd durationOptions) ->
  (0 <= micros_of_millis now + dur <= MAX_SAFE_INTEGER)%Z.
Proof.
  intros Hnow Hin. unfold micros_of_millis, MAX_SAFE_INTEGER.
  simpl in Hin. unfold micros_per_second in Hin.
  change (2 ^ 43)%Z with 8796093022208%Z in Hnow.
  change (2 ^ 53 - 1)%Z with 9007199254740991%Z.
  repeat (destruct Hin as [Hin|Hin]; [subst dur; lia|]). contradiction.
Qed.

(* ===================================================================== *)
(** ** The classifier *)

Section ClassifierFacts.

Variable World : Type.
Variable sdk : Sdk World.

Lemma isExpired_reads_clock expiration st :
  isExpired sdk expiration st
  = (log st (fst (sdk_dateNow sdk (world st)))
         (EvDateNow (snd (sdk_dateNow sdk (world st)))),
     Ok (snd (sdk_dateNow sdk (world st)) * 1000 >? expiration)%Z).
Proof.
  unfold isExpired, dateNow, bind, ret, micros_of_millis.
  destruct (sdk_dateNow sdk (world st)); reflexivity.
Qed.

(** A filter whose test always answers as a pure test does is the pure
    filter. *)
Lemma filterM_pure {A} (p : A -> M World bool) (q : A -> bool) l :
  (forall x st, snd (p x st) = Ok (q x)) ->
  forall st, snd (filterM p l st) = Ok (filter q l).
Proof.
  intros Hp. induction l as [|x t IH]; intros st; simpl.
  - reflexivity.
  - unfold bind. specialize (Hp x st).
    destruct (p x st) as [st1 [keep|err]]; simpl in Hp; [|discriminate].
    injection Hp as ->. specialize (IH st1).
    destruct (filterM p t st1) as [st2 [rest|err]]; simpl in IH;
      [|discriminate].
    injection IH as ->. unfold ret. simpl. destruct (q x); reflexivity.
Qed.

Lemma views_frozen_clock now blobs st :
  frozen_clock sdk now ->
  snd (views sdk blobs st)
  = Ok (rev (filter (fun b => negb (now * 1000 >? expirationMicros b)%Z) blobs),
        rev (filter (fun b => (now * 1000 >? expirationMicros b)%Z) blobs)).
Proof.
  intros Hclock. unfold views, currentBlobs, expiredBlobs, bind.
  pose proof
    (filterM_pure
       (fun blob st0 => bind (isExpired sdk (expirationMicros blob))
                             (fun e => ret (negb e)) st0)
       (fun b => negb (now * 1000 >? expirationMicros b)%Z) blobs) as Hcur.
  pose proof
    (filterM_pure
       (fun blob => isExpired sdk (expirationMicros blob))
       (fun b => (now * 1000 >? expirationMicros b)%Z) blobs) as Hexp.
  assert (H1 : forall (x : BlobMetadata) st0,
             snd (isExpired sdk (expirationMicros x) st0)
             = Ok (now * 1000 >? expirationMicros x)%Z).
  { intros x st0. rewrite isExpired_reads_clock. simpl.
    now rewrite Hclock. }
  assert (H2 : forall (x : BlobMetadata) st0,
             snd (bind (isExpired sdk (expirationMicros x))
                       (fun e => ret (negb e)) st0)
             = Ok (negb (now * 1000 >? expirationMicros x)%Z)).
  { intros x st0. unfold bind. rewrite isExpired_reads_clock. simpl.
    now rewrite Hclock. }
  specialize (Hcur H2 st). specialize (Hexp H1).
  unfold bind in Hcur.
  destruct (filterM _ blobs st) as [st1 [cur|err]]; simpl in Hcur;
    [|discriminate].
  injection Hcur as ->. unfold ret at 1. simpl.
  specialize (Hexp st1).
  destruct (filterM _ blobs st1) as [st2 [ex|err]]; simpl in Hexp;
    [|discriminate].
  injection Hexp as ->. reflexivity.
Qed.

(** C3, as the code has it.  While the clock reads [now], a fetched blob
    whose expiration equals [now] in microseconds is in the current view
    and not in the expired view: a blob is expired only when the clock
    is strictly past its expiration. *)
Theorem tie_is_current now blobs st b :
  frozen_clock sdk now ->
  In b blobs ->
  expirationMicros b = (now * 1000)%Z ->
  exists current expired,
    snd (views sdk blobs st) = Ok (current, expired)
    /\ In b current /\ ~ In b expired
    /\ snd (isExpired sdk (expirationMicros b) st) = Ok false.
Proof.
  intros Hclock Hin Htie. do 2 eexists.
  split; [apply views_frozen_clock, Hclock|].
  assert (Hgt : (now * 1000 >? expirationMicros b)%Z = false)
    by (rewrite Htie, Z.gtb_ltb; apply Z.ltb_irrefl).
  repeat split.
  - apply -> in_rev. apply filter_In. now rewrite Hgt.
  - rewrite <- in_rev, filter_In. rewrite Hgt. intros [_ H]. discriminate.
  - rewrite isExpired_reads_clock. simpl. now rewrite Hclock, Hgt.
Qed.

(** X29. While the clock does not move, the two views split the fetched
    blobs: each one is in exactly one of them. *)
Lemma views_partition_frozen_clock now blobs st b :
  frozen_clock sdk now ->
  In b blobs ->
  exists current expired,
    snd (views sdk blobs st) = Ok (current, expired)
    /\ ((In b current /\ ~ In b expired)
        \/ (~ In b current /\ In b expired)).
Proof.
  intros Hclock Hin. do 2 eexists.
  split; [apply views_frozen_clock, Hclock|].
  rewrite <- !in_rev, !filter_In.
  destruct (now * 1000 >? expirationMicros b)%Z; simpl.
  - right. split; [intros [_ H]; discriminate|auto].
  - left. split; [auto|intros [_ H]; discriminate].
Qed.

End ClassifierFacts.

(** C3, as stated, fails.  A blob whose expiration equals the clock reading
    in microseconds is not expired for [isExpired]; the views put it in
    the current one and leave the expired one empty. *)
Lemma tie_is_not_expired :
  expirationMicros Demo.tie_blob = (Demo.clock Demo.world0 * 1000)%Z
  /\ snd (isExpired Demo.sdk (expirationMicros Demo.tie_blob)
            (Demo.start Demo.world0)) = Ok false
  /\ snd (views Demo.sdk [Demo.tie_blob] (Demo.start Demo.world0))
     = Ok ([Demo.tie_blob], []).
Proof. repeat split. Qed.

Lemma tie_is_current_witness :
  exists current expired,
    snd (views (Demo.frozen_sdk 5) [Demo.tie_blob; {| name := []; owner := [];
                                                      expirationMicros := 5000;
                                                      size := 0 |}]
           (Demo.start Demo.world0)) = Ok (current, expired)
    /\ In {| name := []; owner := []; expirationMicros := 5000; size := 0 |}
          current.
Proof.
  destruct (@tie_is_current Demo.World (Demo.frozen_sdk 5) 5
              [Demo.tie_blob; {| name := []; owner := [];
                                 expirationMicros := 5000; size := 0 |}]
              (Demo.start Demo.world0)
              {| name := []; owner := []; expirationMicros := 5000; size := 0 |})
    as (current & expired & Hv & Hc & _).
  - intros w. reflexivity.
  - right. left. reflexivity.
  - reflexivity.
  - exists current, expired. split; assumption.
Defined.

(** C4 at a failing input.  The clock is read anew at every test.  When it
    ticks between the pass that computes the current view and the pass
    that computes the expired view, a blob that expires in between is put
    in both views. *)
Theorem views_overlap_when_clock_ticks :
  snd (views Demo.sdk [Demo.tie_blob] (Demo.start Demo.ticking))
  = Ok ([Demo.tie_blob], [Demo.tie_blob])
  /\ trace (fst (views Demo.sdk [Demo.tie_blob] (Demo.start Demo.ticking)))
     = [EvDateNow 1700000000000; EvDateNow 1700000000001].
Proof. split; reflexivity. Qed.

(* ===================================================================== *)
(** ** The fetch effect of the listing *)

(** C6, as the code has it.  When the effect runs for a new account
    identity, the fetched result is cleared only if the account is now
    absent; for a present account the previous result stays on display and
    a fetch for the new address is started.  The result of a fetch that
    resolves replaces what is displayed, whichever account is connected by
    then. *)
Theorem account_change_clears_only_on_disconnect
        (st : Listing.State) (a : option AccountInfo) (r : option Z)
        (i : nat) (result : list BlobMetadata) :
  Listing.account (Listing.step (Listing.DepsChanged a r) st) = a
  /\ match a with
     | None =>
         Listing.blobs (Listing.step (Listing.DepsChanged a r) st) = []
         /\ Listing.inflight (Listing.step (Listing.DepsChanged a r) st)
            = Listing.inflight st
     | Some acc =>
         Listing.blobs (Listing.step (Listing.DepsChanged a r) st)
         = Listing.blobs st
         /\ Listing.inflight (Listing.step (Listing.DepsChanged a r) st)
            = Listing.inflight st ++ [address acc]
     end
  /\ match nth_error (Listing.inflight st) i with
     | Some _ =>
         Listing.blobs (Listing.step (Listing.FetchResolved i result) st)
         = result
         /\ Listing.account (Listing.step (Listing.FetchResolved i result) st)
            = Listing.account st
     | None => Listing.step (Listing.FetchResolved i result) st = st
     end.
Proof.
  split; [destruct a; reflexivity|].
  split; [destruct a; split; reflexivity|].
  unfold Listing.step. destruct (nth_error (Listing.inflight st) i); auto.
Qed.


(** C6, as stated, fails.  Alice's listing is on display; the account
    changes to bob.  After the effect has run, and until bob's fetch
    resolves, the listing still shows alice's blob. *)
Lemma stale_listing_after_account_switch :
  let shown :=
    Listing.run [Listing.DepsChanged (Some Demo.alice) None;
                 Listing.FetchResolved 0 [Demo.tie_blob]] Listing.initial in
  let switched := Listing.step (Listing.DepsChanged (Some Demo.bob) None) shown in
  Listing.blobs shown = [Demo.tie_blob]
  /\ Listing.account switched = Some Demo.bob
  /\ Listing.inflight switched = [address Demo.bob]
  /\ Listing.blobs switched = [Demo.tie_blob]
  /\ owner Demo.tie_blob = address Demo.alice
  /\ Listing.shows_stale switched = true.
Proof. repeat split. Qed.

(* ===================================================================== *)
(** ** The statements at concrete inputs *)


Lemma guard_failure_keeps_state_witness :
  let st := Demo.start Demo.world0 in
  let absent :=
    submitFileToChain Demo.sdk Demo.env None (Some Demo.native)
      Demo.commitment Demo.photo 5 None None None st in
  let rejected :=
    submitFileToChain Demo.sdk Demo.env (Some Demo.alice) (Some Demo.native)
      Demo.commitment Demo.photo 5 None None None (Demo.start Demo.rejecting) in
  (fst absent = st
   /\ snd absent = Throw (ErrorObj (of_string "Account and wallet are required"))
   /\ isSubmitting (hook (fst absent)) = isSubmitting (hook st)
   /\ error (hook (fst absent)) = error (hook st))
  /\ (error (hook (fst rejected)) = Some (of_string "User rejected the request")
      /\ isSubmitting (hook (fst rejected)) = false).
Proof.
  split.
  - apply (@guard_failure_keeps_state Demo.World Demo.sdk Demo.env None
             (Some Demo.native) Demo.commitment Demo.photo 5 None None None
             (Demo.start Demo.world0)).
    apply surjective_pairing.
  - apply (@guard_failure_keeps_state Demo.World Demo.sdk Demo.env
             (Some Demo.alice) (Some Demo.native) Demo.commitment Demo.photo
             5 None None None (Demo.start Demo.rejecting) _ _
             (surjective_pairing _) Demo.rejected).
    reflexivity.
Defined.

Lemma native_path_ignores_sponsor_witness :
  isAptosNativeWallet Demo.native = true
  /\ submitFileToChain Demo.sdk Demo.env (Some Demo.alice) (Some Demo.native)
       Demo.commitment Demo.photo 5 None None None (Demo.start Demo.world0)
     = submitFileToChain Demo.sdk
         {| NEXT_PUBLIC_SPONSOR_PRIVATE_KEY := None |}
         (Some Demo.alice) (Some Demo.native)
         Demo.commitment Demo.photo 5 None None None (Demo.start Demo.world0).
Proof.
  split; [reflexivity|].
  apply (@native_path_ignores_sponsor Demo.World Demo.sdk Demo.env
           {| NEXT_PUBLIC_SPONSOR_PRIVATE_KEY := None |} Demo.alice Demo.native
           Demo.commitment Demo.photo 5 None None None (Demo.start Demo.world0)).
  reflexivity.
Defined.



Lemma upload_only_after_chain_success_witness :
  exists tr,
    trace (fst (uploadFile Demo.sdk Demo.env Demo.form (Demo.start Demo.world0)))
    = [] ++ tr
    /\ snd (uploadFile Demo.sdk Demo.env Demo.form (Demo.start Demo.world0))
       = Ok tt
    /\ (chain_step_failed tr = true -> existsb is_upload tr = false).
Proof.
  destruct (@upload_only_after_chain_success Demo.World Demo.sdk Demo.env
              Demo.form (Demo.start Demo.world0) _ _ (surjective_pairing _))
    as (tr & Htr & Hr & Hc & _).
  exists tr. repeat split; assumption.
Defined.


(** The demo upload, end to end: the file "a.jpg" under the standard
    profile for one day, with a native wallet. *)
Example demo_upload :
  let out := uploadFile Demo.sdk Demo.env Demo.form (Demo.start Demo.world0) in
  success_report (ui (fst out))
  = (true, Demo.hash, of_string "Paris_2024-05-01_7.jpg")
  /\ List.length (filter is_upload (trace (fst out))) = 1%nat
  /\ isUploading (ui (fst out)) = false.
Proof. vm_compute. repeat split. Qed.

(* ===================================================================== *)
(** * Further properties *)

(** ** Splitting at a separator *)

Section SplitFacts.

Variable sep : code_unit.

Lemma split_not_nil s : split sep s <> [].
Proof.
  destruct s as [|c t]; simpl; [discriminate|].
  destruct (c =? sep)%N; [discriminate|].
  destruct (split sep t); discriminate.
Qed.

Lemma split_no_sep s :
  Forall (fun c => (c =? sep)%N = false) s -> split sep s = [s].
Proof.
  induction 1 as [|c t Hc _ IH]; simpl.
  - reflexivity.
  - rewrite Hc, IH. reflexivity.
Qed.

Lemma split_parts_no_sep s :
  Forall (Forall (fun c => (c =? sep)%N = false)) (split sep s).
Proof.
  induction s as [|c t IH]; simpl.
  - repeat constructor.
  - destruct (c =? sep)%N eqn:E.
    + constructor; [constructor|exact IH].
    + destruct (split sep t) as [|p ps].
      * repeat constructor. exact E.
      * inversion IH; subst. repeat constructor; assumption.
Qed.

Lemma last_in_nonempty {A} (l : list A) d : l <> [] -> In (last l d) l.
Proof.
  induction l as [|x t IH]; intros H; [contradiction|].
  destruct t as [|y t']; [left; reflexivity|].
  right. apply IH. discriminate.
Qed.

Lemma split_last_no_sep s :
  Forall (fun c => (c =? sep)%N = false) (last (split sep s) []).
Proof.
  pose proof (split_parts_no_sep s) as H.
  rewrite Forall_forall in H. apply H.
  apply last_in_nonempty, split_not_nil.
Qed.

(** Either the string has no separator and is its only part, or it is a
    stem, a separator and the last part. *)
Lemma split_last_suffix s :
  (Forall (fun c => (c =? sep)%N = false) s /\ split sep s = [s])
  \/ (exists stem,
         s = stem ++ sep :: last (split sep s) []
         /\ (1 < List.length (split sep s))%nat).
Proof.
  induction s as [|c t IH]; simpl.
  - left. split; [constructor|reflexivity].
  - destruct (N.eqb_spec c sep) as [->|Hne].
    + right. pose proof (split_not_nil t) as Hnil.
      destruct (split sep t) as [|p ps] eqn:E; [contradiction|].
      destruct IH as [[Hno Hone]|(stem & Hs & Hlen)].
      * injection Hone as -> ->. exists []. simpl. split; [reflexivity|lia].
      * exists (sep :: stem). simpl. split; [|simpl in Hlen; lia].
        simpl in Hs. rewrite Hs at 1. reflexivity.
    + destruct IH as [[Hno Hone]|(stem & Hs & Hlen)].
      * left. rewrite Hone. split; [|reflexivity].
        constructor; [now apply N.eqb_neq|exact Hno].
      * right. destruct (split sep t) as [|p [|q ps]] eqn:E;
          simpl in Hlen; try lia.
        exists (c :: stem). simpl. split; [|lia].
        simpl in Hs. rewrite Hs at 1. reflexivity.
Qed.

(** What precedes a separator does not change the last part. *)
Lemma split_app_sep_last a b :
  last (split sep (a ++ sep :: b)) [] = last (split sep b) []
  /\ (1 < List.length (split sep (a ++ sep :: b)))%nat.
Proof.
  pose proof (split_not_nil b) as Hb.
  induction a as [|c a IH]; simpl.
  - rewrite N.eqb_refl.
    destruct (split sep b) as [|p ps]; [contradiction|]. simpl. split; [reflexivity|lia].
  - destruct IH as [IHl IHn].
    destruct (c =? sep)%N.
    + destruct (split sep (a ++ sep :: b)) as [|p ps]; simpl in *; [lia|].
      split; [exact IHl|lia].
    + destruct (split sep (a ++ sep :: b)) as [|p [|q ps]]; simpl in *; try lia.
      split; [exact IHl|lia].
Qed.

End SplitFacts.

(** ** The sanitizer, further *)

Section SanitizerShape.

Variable C : code_unit -> bool.

Lemma head_not_cons s c t : head_not C s -> C c = true -> s <> c :: t.
Proof. intros H Hc ->. simpl in H. congruence. Qed.

Lemma no_run_no_pair s a c d b :
  no_run C s -> C c = true -> C d = true -> s <> a ++ c :: d :: b.
Proof.
  intros H Hc Hd ->. induction a as [|x a IH]; simpl in H.
  - destruct H as [H _]. specialize (H Hc). simpl in H. congruence.
  - apply IH, H.
Qed.

Lemma drop_trailing_length s : (List.length (drop_trailing C s) <= List.length s)%nat.
Proof.
  induction s as [|c t IH]; simpl; [lia|].
  destruct (drop_trailing C t); [destruct (C c)|]; simpl in *; lia.
Qed.

Lemma drop_trailing_snoc s c :
  C c = true -> drop_trailing C (s ++ [c]) = drop_trailing C s.
Proof.
  intros Hc. induction s as [|x t IH]; simpl.
  - rewrite Hc. reflexivity.
  - rewrite IH. reflexivity.
Qed.

Lemma drop_trailing_fixed_last s t c :
  drop_trailing C s = s -> C c = true -> s <> t ++ [c].
Proof.
  intros H Hc ->. rewrite drop_trailing_snoc in H by exact Hc.
  pose proof (drop_trailing_length t) as Hl. rewrite H in Hl.
  rewrite length_app in Hl. simpl in Hl. lia.
Qed.

Lemma drop_leading_length s : (List.length (drop_leading C s) <= List.length s)%nat.
Proof.
  induction s as [|c t IH]; simpl; [lia|].
  destruct (C c); simpl; lia.
Qed.

Lemma replace_runs_length h b s :
  (List.length (replace_runs C [h] b s) <= List.length s)%nat.
Proof.
  revert b. induction s as [|c t IH]; intros b; simpl; [lia|].
  pose proof (IH true). pose proof (IH false).
  destruct (C c); [destruct b|]; simpl; lia.
Qed.

Lemma replace_each_length h s :
  List.length (replace_each C [h] s) = List.length s.
Proof.
  induction s as [|c t IH]; simpl; [reflexivity|].
  destruct (C c); simpl; now rewrite IH.
Qed.

(** What a replacement removes or rewrites is outside [P], so the
    characters of [P] come out as they went in. *)
Variable P : code_unit -> bool.
Hypothesis C_not_P : forall c, C c = true -> P c = false.

Lemma filter_replace_runs h b s :
  P h = false -> filter P (replace_runs C [h] b s) = filter P s.
Proof.
  intros Hh. revert b. induction s as [|c t IH]; intros b; simpl; [reflexivity|].
  destruct (C c) eqn:E.
  - rewrite (C_not_P E). destruct b; simpl; [|rewrite Hh]; apply IH.
  - simpl. rewrite IH. reflexivity.
Qed.

Lemma filter_replace_each h s :
  P h = false -> filter P (replace_each C [h] s) = filter P s.
Proof.
  intros Hh. induction s as [|c t IH]; simpl; [reflexivity|].
  destruct (C c) eqn:E; simpl.
  - rewrite Hh, (C_not_P E). exact IH.
  - rewrite IH. reflexivity.
Qed.

Lemma filter_drop_leading s : filter P (drop_leading C s) = filter P s.
Proof.
  induction s as [|c t IH]; simpl; [reflexivity|].
  destruct (C c) eqn:E; [|reflexivity].
  rewrite (C_not_P E). exact IH.
Qed.

Lemma filter_drop_trailing s : filter P (drop_trailing C s) = filter P s.
Proof.
  induction s as [|c t IH]; simpl; [reflexivity|].
  destruct (drop_trailing C t) as [|d t'] eqn:E.
  - simpl in IH. rewrite <- IH.
    destruct (C c) eqn:Ec; simpl; [rewrite (C_not_P Ec)|]; reflexivity.
  - change (filter P (c :: d :: t')) with
      (if P c then c :: filter P (d :: t') else filter P (d :: t')).
    rewrite IH. reflexivity.
Qed.

End SanitizerShape.

Lemma forallb_drop_leading C s : forallb C (drop_leading C s) = forallb C s.
Proof.
  induction s as [|c t IH]; simpl; [reflexivity|].
  destruct (C c) eqn:E; simpl; [exact IH|now rewrite E].
Qed.

Lemma drop_trailing_nil_iff C s : drop_trailing C s = [] <-> forallb C s = true.
Proof.
  induction s as [|c t IH]; simpl; [tauto|].
  destruct (drop_trailing C t) as [|d t'].
  - destruct (C c); simpl.
    + split; [intros _; now apply IH|reflexivity].
    + split; discriminate.
  - split; [discriminate|]. intros H. apply andb_true_iff in H.
    destruct H as [_ H]. apply IH in H. discriminate.
Qed.

Lemma strip_ends_nil_iff C s : strip_ends C s = [] <-> forallb C s = true.
Proof.
  unfold strip_ends. rewrite drop_trailing_nil_iff. now rewrite forallb_drop_leading.
Qed.

Lemma jsstring_eqb_nil s : JsString.eqb s [] = true <-> s = [].
Proof. destruct s; simpl; split; congruence. Qed.

Lemma word_char_not_space c : is_space c = true -> is_word_char c = false.
Proof.
  intros H. unfold is_word_char.
  destruct (is_name_char c) eqn:E; [|reflexivity].
  apply name_char_not_space in E. congruence.
Qed.

Lemma word_char_not_hyphen c : is_hyphen c = true -> is_word_char c = false.
Proof. intros H. unfold is_word_char. rewrite H. apply andb_false_r. Qed.

Lemma word_char_is_name_char c :
  negb (is_name_char c) = true -> is_word_char c = false.
Proof.
  intros H. apply negb_true_iff in H. unfold is_word_char. now rewrite H.
Qed.

(** X1. What the sanitizer returns holds only letters, digits, hyphens and
    underscores, neither starts nor ends with a hyphen, and has no two
    hyphens in a row. *)
Theorem sanitizeInput_output_shape (s : jsstring) :
  Forall (fun c => is_name_char c = true) (sanitizeInput s)
  /\ (forall t, sanitizeInput s <> hyphen :: t)
  /\ (forall t, sanitizeInput s <> t ++ [hyphen])
  /\ (forall a b, sanitizeInput s <> a ++ hyphen :: hyphen :: b).
Proof.
  destruct (sanitizeInput_sanitized s) as (F & Nr & Hd & Tl).
  split; [exact F|]. split; [|split].
  - intros t. now apply (head_not_cons is_hyphen).
  - intros t. now apply (drop_trailing_fixed_last is_hyphen).
  - intros a b. now apply (no_run_no_pair is_hyphen).
Qed.

Lemma sanitizeInput_filter_word s :
  filter is_word_char (sanitizeInput s) = filter is_word_char s.
Proof.
  unfold sanitizeInput, strip_ends.
  rewrite (filter_drop_trailing is_hyphen is_word_char word_char_not_hyphen).
  rewrite (filter_drop_leading is_hyphen is_word_char word_char_not_hyphen).
  rewrite (filter_replace_runs is_hyphen is_word_char word_char_not_hyphen)
    by reflexivity.
  rewrite (filter_replace_each _ is_word_char word_char_is_name_char)
    by reflexivity.
  now rewrite (filter_replace_runs is_space is_word_char word_char_not_space)
    by reflexivity.
Qed.

(** X2. The sanitizer keeps every letter, digit and underscore of its
    input, in the order of the input, and adds none. *)
Theorem sanitizeInput_keeps_word_chars (s : jsstring) :
  filter is_word_char (sanitizeInput s) = filter is_word_char s.
Proof. apply sanitizeInput_filter_word. Qed.

(** X3. The sanitized field is empty exactly when the input has no letter,
    digit or underscore. *)
Theorem sanitizeInput_empty_iff (s : jsstring) :
  sanitizeInput s = [] <-> Forall (fun c => is_word_char c = false) s.
Proof.
  split.
  - intros H. pose proof (sanitizeInput_filter_word s) as Hf.
    rewrite H in Hf. simpl in Hf. clear H.
    induction s as [|c t IH]; [constructor|].
    simpl in Hf. destruct (is_word_char c) eqn:E; [discriminate|].
    constructor; auto.
  - intros H.
    assert (Hf : filter is_word_char (sanitizeInput s) = []).
    { rewrite sanitizeInput_filter_word.
      induction H as [|c t Hc _ IH]; simpl; [reflexivity|]. now rewrite Hc. }
    destruct (sanitizeInput_sanitized s) as (F & _ & Hd & _).
    destruct (sanitizeInput s) as [|c t]; [reflexivity|exfalso].
    simpl in Hd, Hf. inversion F as [|? ? Hc _]; subst.
    unfold is_word_char in Hf. rewrite Hc, Hd in Hf. discriminate.
Qed.

(** X4. Sanitizing never lengthens a field. *)
Theorem sanitizeInput_length (s : jsstring) :
  (List.length (sanitizeInput s) <= List.length s)%nat.
Proof.
  unfold sanitizeInput, strip_ends.
  eapply Nat.le_trans; [apply drop_trailing_length|].
  eapply Nat.le_trans; [apply drop_leading_length|].
  eapply Nat.le_trans; [apply replace_runs_length|].
  rewrite replace_each_length. apply replace_runs_length.
Qed.

(** ** The form *)

(** X5. The form is valid exactly when each of the three fields holds a
    character that is not white space. *)
Theorem isFormValid_iff (form : FormInputs) :
  isFormValid form = true
  <-> (existsb (fun c => negb (is_space c)) (location form) = true
       /\ existsb (fun c => negb (is_space c)) (date form) = true
       /\ existsb (fun c => negb (is_space c)) (id form) = true).
Proof.
  assert (H : forall s, negb (JsString.eqb (trim s) []) = true
                        <-> existsb (fun c => negb (is_space c)) s = true).
  { intros s.
    assert (Heq : JsString.eqb (trim s) [] = forallb is_space s).
    { apply eq_true_iff_eq. rewrite jsstring_eqb_nil.
      apply strip_ends_nil_iff. }
    rewrite Heq. clear Heq.
    induction s as [|c t IH]; simpl; [split; discriminate|].
    destruct (is_space c); simpl; [exact IH|tauto]. }
  unfold isFormValid. rewrite !andb_true_iff, !H. tauto.
Qed.

(** ** File names *)

Lemma getFileExtension_cases (f : File) :
  (getFileExtension (Some f) = []
   /\ Forall (fun c => (c =? dot)%N = false) (file_name f))
  \/ (exists stem ext,
         file_name f = stem ++ dot :: ext
         /\ getFileExtension (Some f) = dot :: ext
         /\ Forall (fun c => (c =? dot)%N = false) ext).
Proof.
  unfold getFileExtension.
  pose proof (split_last_no_sep dot (file_name f)) as Hlast.
  destruct (split_last_suffix dot (file_name f)) as [[Hno Hone]|(stem & Hs & Hlen)].
  - left. rewrite Hone. simpl. split; [reflexivity|exact Hno].
  - right. exists stem, (last (split dot (file_name f)) []).
    apply Nat.ltb_lt in Hlen. rewrite Hlen. repeat split; assumption.
Qed.

(** X6. The extension of a file is empty when its name has no dot;
    otherwise the name is a stem followed by the extension, and the
    extension is a dot followed by the text after the last dot. *)
Theorem getFileExtension_shape (f : File) :
  (exists stem, file_name f = stem ++ getFileExtension (Some f))
  /\ ((getFileExtension (Some f) = []
       /\ Forall (fun c => (c =? dot)%N = false) (file_name f))
      \/ (exists ext,
             getFileExtension (Some f) = dot :: ext
             /\ Forall (fun c => (c =? dot)%N = false) ext)).
Proof.
  destruct (getFileExtension_cases f) as [[He Hno]|(stem & ext & Hn & He & Hno)].
  - split; [|left; split; assumption].
    exists (file_name f). rewrite He. symmetry. apply app_nil_r.
  - split; [|right; exists ext; split; assumption].
    exists stem. rewrite He. exact Hn.
Qed.

Lemma name_char_not_dot c : is_name_char c = true -> (c =? dot)%N = false.
Proof.
  intros H. destruct (c =? dot)%N eqn:E; [exfalso|reflexivity].
  unfold is_name_char, hyphen, underscore, dot in *. bool_hyps; lia.
Qed.

Lemma sanitizeInput_no_dot s :
  Forall (fun c => (c =? dot)%N = false) (sanitizeInput s).
Proof.
  destruct (sanitizeInput_sanitized s) as (F & _).
  eapply Forall_impl; [|exact F]. apply name_char_not_dot.
Qed.

(** X7. Renaming keeps the extension: the extension of the generated file
    name, computed as for any file, is the extension of the selected
    file. *)
Theorem generateFileName_keeps_extension (form : FormInputs) (selected : File) :
  selectedFile form = Some selected ->
  getFileExtension
    (Some {| file_name := generateFileName form;
             file_type := file_type selected;
             file_parts := file_parts selected |})
  = getFileExtension (Some selected).
Proof.
  intros Hsel. unfold generateFileName. rewrite Hsel.
  set (stem := sanitizeInput (location form) ++ [underscore]
               ++ sanitizeInput (date form) ++ [underscore]
               ++ sanitizeInput (id form)).
  assert (Hstem : Forall (fun c => (c =? dot)%N = false) stem).
  { unfold stem. repeat (apply Forall_app; split);
      try apply sanitizeInput_no_dot; repeat constructor. }
  replace (sanitizeInput (location form) ++ [underscore]
           ++ sanitizeInput (date form) ++ [underscore]
           ++ sanitizeInput (id form) ++ getFileExtension (Some selected))
    with (stem ++ getFileExtension (Some selected))
    by (unfold stem; now rewrite <- !app_assoc).
  destruct (getFileExtension_cases selected) as [[He _]|(_ & ext & _ & He & Hno)];
    rewrite He; unfold getFileExtension; simpl file_name.
  - rewrite app_nil_r, (split_no_sep dot Hstem). reflexivity.
  - destruct (split_app_sep_last dot stem ext) as [Hl Hn].
    apply Nat.ltb_lt in Hn. rewrite Hn, Hl, (split_no_sep dot Hno). reflexivity.
Qed.

Lemma extractFileName_cases (s : jsstring) :
  (extractFileName s = s
   /\ (Forall (fun c => (c =? slash)%N = false) s
       \/ exists t, s = t ++ [slash]))
  \/ (exists dir,
         s = dir ++ slash :: extractFileName s
         /\ extractFileName s <> []
         /\ Forall (fun c => (c =? slash)%N = false) (extractFileName s)).
Proof.
  unfold extractFileName.
  pose proof (split_last_no_sep slash s) as Hlast.
  destruct (split_last_suffix slash s) as [[Hno Hone]|(stem & Hs & _)].
  - left. rewrite Hone. simpl. split; [destruct s; reflexivity|left; exact Hno].
  - destruct (last (split slash s) []) as [|c l] eqn:E.
    + left. split; [reflexivity|right; exists stem; exact Hs].
    + right. exists stem. split; [exact Hs|split; [discriminate|exact Hlast]].
Qed.


(** X9. Extracting the file name twice gives what extracting it once
    gives. *)
Theorem extractFileName_idempotent (s : jsstring) :
  extractFileName (extractFileName s) = extractFileName s.
Proof.
  destruct (extractFileName_cases s) as [[He _]|(_ & _ & Hne & Hno)].
  - now rewrite !He.
  - unfold extractFileName at 1. rewrite (split_no_sep slash Hno). simpl.
    destruct (extractFileName s); [contradiction|reflexivity].
Qed.

(** X10. Whether a file counts as an image is decided by the text after
    its last dot alone: whatever precedes a dot is ignored. *)
Theorem isImageFile_last_segment
        (toLowerCase : jsstring -> jsstring) (a b : jsstring) :
  isImageFile toLowerCase (a ++ dot :: b) = isImageFile toLowerCase b.
Proof.
  unfold isImageFile.
  destruct (split_app_sep_last dot a b) as [Hl _]. now rewrite Hl.
Qed.

Example isImageFile_samples :
  isImageFile Sample.lowerAscii (of_string "photos/2024/Paris.JPG") = true
  /\ isImageFile Sample.lowerAscii (of_string "notes.txt") = false
  /\ isImageFile Sample.lowerAscii (of_string "png") = true
  /\ isImageFile Sample.lowerAscii (of_string "archive.") = false
  /\ extractFileName (of_string "photos/2024/Paris.JPG") = of_string "Paris.JPG"
  /\ extractFileName (of_string "photos/") = of_string "photos/".
Proof. repeat split. Qed.

(** ** The redundancy level *)

Lemma jsstring_eqb_eq (s t : jsstring) : JsString.eqb s t = true <-> s = t.
Proof.
  revert t. induction s as [|c s IH]; destruct t as [|d t]; simpl;
    try (split; congruence).
  rewrite andb_true_iff, N.eqb_eq, IH. split.
  - intros [-> ->]. reflexivity.
  - intros H. injection H as -> ->. auto.
Qed.

Lemma redundancyConfig_cases (level : jsstring) :
  offered_shape (erasure_n (redundancyConfig level))
                (erasure_k (redundancyConfig level))
                (erasure_d (redundancyConfig level))
  /\ (opt_value (redundancyConfig level) = level
      \/ (redundancyConfig level = standardOption
          /\ ~ In level (map opt_value redundancyOptions))).
Proof.
  unfold redundancyConfig, redundancyOptions, offered_shape.
  cbn [find opt_value].
  destruct (JsString.eqb (of_string "economic") level) eqn:E1;
    [|destruct (JsString.eqb (of_string "standard") level) eqn:E2;
      [|destruct (JsString.eqb (of_string "high") level) eqn:E3]];
    cbn [erasure_n erasure_k erasure_d opt_value].
  - split; [left; repeat split|left; exact (proj1 (jsstring_eqb_eq _ _) E1)].
  - split; [right; left; repeat split|left; exact (proj1 (jsstring_eqb_eq _ _) E2)].
  - split; [right; right; repeat split|left; exact (proj1 (jsstring_eqb_eq _ _) E3)].
  - split; [right; left; repeat split|right].
    split; [reflexivity|]. cbn [map opt_value].
    intros [H|[H|[H|[]]]]; apply jsstring_eqb_eq in H; congruence.
Qed.


(* ===================================================================== *)
(** ** The submitter, further *)

(** The leaves of a run of the submitter with account and wallet. *)
Ltac submit_runs w :=
  unfold_submitter; destruct (isAptosNativeWallet w); repeat next_call;
  repeat match goal with u : unit |- _ => destruct u end;
  intros Hrun; inversion Hrun; subst; clear Hrun;
  simpl; rewrite <- ?app_assoc; simpl;
  eexists; (split; [reflexivity|]).

(** Each event of a concrete trace in turn. *)
Ltac each_event Hin :=
  simpl in Hin;
  repeat (destruct Hin as [Hin|Hin];
          [try discriminate Hin; try (inversion Hin; subst; try clear Hin)|]);
  try contradiction.

(** Membership in a concrete list. *)
Ltac in_list := simpl; repeat (first [left; reflexivity | right]).

Section SubmitterFurther.

Variable World : Type.
Variable sdk : Sdk World.

(** X12. The submitter stops at the first call that throws: in every run
    at least one call is made, no call but the last one has failed, and
    the run throws exactly what its last call threw, or returns when that
    call succeeded. *)
Theorem submitFileToChain_stops_at_first_failure
        env acc w c f e n k d st st' r :
  submitFileToChain sdk env (Some acc) (Some w) c f e n k d st = (st', r) ->
  exists tr,
    trace st' = trace st ++ tr
    /\ tr <> []
    /\ existsb event_failed (removelast tr) = false
    /\ thrown_of r = event_error (last tr (EvDateNow 0)).
Proof.
  submit_runs w; repeat split; discriminate.
Qed.

(** X13. A hash is returned only once the chain has reported finality for
    it: the last call of a successful run is the wait for that hash, the
    hash is the one the wallet or the chain client returned for the
    submission, no call has failed, and the hook shows no error and is not
    in progress. *)
Theorem submitFileToChain_returns_finalized_hash
        env acc w c f e n k d st st' hash :
  submitFileToChain sdk env (Some acc) (Some w) c f e n k d st
  = (st', Ok hash) ->
  exists tr,
    trace st' = trace st ++ tr
    /\ finalized hash (last tr (EvDateNow 0))
    /\ existsb event_failed tr = false
    /\ ((exists p, In (EvSignAndSubmitTransaction p (Ok hash)) tr)
        \/ (exists raw sa fa, In (EvSubmitSimple raw sa fa (Ok hash)) tr))
    /\ error (hook st') = None
    /\ isSubmitting (hook st') = false.
Proof.
  submit_runs w.
  - split; [left; reflexivity|]. split; [reflexivity|].
    split; [left; eexists; simpl; tauto|]. split; reflexivity.
  - split; [right; reflexivity|]. split; [reflexivity|].
    split; [right; do 3 eexists; simpl; tauto|]. split; reflexivity.
Qed.

(** X14. When the wallet refuses the detached signature, the fee payer is
    not asked to sign and nothing is submitted; when the fee payer's
    signature fails, nothing is submitted.  The run throws the error of
    the failed signature. *)
Theorem failed_authorization_submits_nothing
        env acc w c f e n k d st st' r :
  submitFileToChain sdk env (Some acc) (Some w) c f e n k d st = (st', r) ->
  exists tr,
    trace st' = trace st ++ tr
    /\ (forall raw err, In (EvSignTransaction raw (Throw err)) tr ->
          r = Throw err
          /\ existsb is_fee_payer_sign tr = false
          /\ existsb is_submit tr = false)
    /\ (forall signer raw err, In (EvSignAsFeePayer signer raw (Throw err)) tr ->
          r = Throw err /\ existsb is_submit tr = false).
Proof.
  submit_runs w;
    (split; [intros raw err Hin|intros signer raw err Hin]);
    each_event Hin; repeat split.
Qed.

(** X15. When the sponsor account cannot be made from the configured key,
    the run throws that error without any call to the wallet, the chain
    or the storage network: the user is never asked to sign. *)
Theorem sponsor_key_failure_precedes_remote_calls
        env acc w c f e n k d st st' r :
  submitFileToChain sdk env (Some acc) (Some w) c f e n k d st = (st', r) ->
  exists tr,
    trace st' = trace st ++ tr
    /\ forall ev err,
         In ev tr ->
         is_sponsor_event ev = true -> is_fee_payer_sign ev = false ->
         event_error ev = Some err ->
         r = Throw err /\ existsb is_remote_call tr = false.
Proof.
  submit_runs w; intros ev err Hin Hs Hf He;
    each_event Hin; simpl in *; try discriminate;
    (split; [congruence|reflexivity]).
Qed.

(** X16. The fee payer that signs is the account made from the key the
    environment holds: the signer of every fee-payer signature was
    returned by [Account.fromPrivateKey] for the key object built from the
    formatted value of NEXT_PUBLIC_SPONSOR_PRIVATE_KEY. *)
Theorem fee_payer_is_the_configured_sponsor
        env acc w c f e n k d st st' r :
  submitFileToChain sdk env (Some acc) (Some w) c f e n k d st = (st', r) ->
  exists tr,
    trace st' = trace st ++ tr
    /\ forall signer raw res,
         In (EvSignAsFeePayer signer raw res) tr ->
         exists formatted key,
           In (EvFormatPrivateKey (NEXT_PUBLIC_SPONSOR_PRIVATE_KEY env)
                                  (Ok formatted)) tr
           /\ In (EvNewEd25519PrivateKey formatted (Ok key)) tr
           /\ In (EvAccountFromPrivateKey key (Ok signer)) tr.
Proof.
  submit_runs w; intros signer raw res Hin; each_event Hin;
    do 2 eexists; simpl; tauto.
Qed.

End SubmitterFurther.

(* ===================================================================== *)
(** ** The commitment step, further *)

Section EncodeFurther.

Variable World : Type.
Variable sdk : Sdk World.

(** X17. A run of the encoder that returns has made three calls: it read
    the bytes of the file it was given, created one provider, and
    generated the commitments it returns from those bytes with that
    provider.  The provider was created without a configuration exactly
    when no parameter was given or all were 0. *)
Theorem encodeFile_success (file : File) (n k d : option Z) st st' c :
  encodeFile sdk file n k d st = (st', Ok c) ->
  exists data cfg provider,
    trace st' = trace st
                ++ [ EvArrayBuffer file (Ok data);
                     EvClayCreate cfg (Ok provider);
                     EvGenerateCommitments provider data (Ok c) ]
    /\ (cfg = None
        <-> truthy n = false /\ truthy k = false /\ truthy d = false)
    /\ hook st' = hook st /\ ui st' = ui st.
Proof.
  unfold encodeFile, bind, call, log. simpl.
  repeat next_call; intros H; inversion H; subst; clear H.
  simpl. rewrite <- !app_assoc. simpl. do 3 eexists.
  split; [reflexivity|]. split; [|split; reflexivity].
  unfold providerConfig, config_keys.
  destruct (truthy n) eqn:En, (truthy k) eqn:Ek, (truthy d) eqn:Ed;
    destruct n, k, d; simpl in *; try discriminate;
    split; try discriminate; try tauto; intros (? & ? & ?); discriminate.
Qed.

(** X18. The encoder stops at the first call that throws and throws what
    that call threw, leaving the hook and the form as they were. *)
Theorem encodeFile_failure (file : File) (n k d : option Z) st st' err :
  encodeFile sdk file n k d st = (st', Throw err) ->
  exists tr,
    trace st' = trace st ++ tr
    /\ tr <> []
    /\ existsb event_failed (removelast tr) = false
    /\ event_error (last tr (EvDateNow 0)) = Some err
    /\ hook st' = hook st /\ ui st' = ui st.
Proof.
  unfold encodeFile, bind, call, log. simpl.
  repeat next_call; intros H; inversion H; subst; clear H;
    simpl; rewrite <- ?app_assoc; simpl;
    eexists; (split; [reflexivity|]); repeat split; discriminate.
Qed.

End EncodeFurther.

(* ===================================================================== *)
(** ** The upload sequencer, further *)

(** The leaves of a run of [uploadFile]. *)
Ltac upload_runs form :=
  destruct form as [sel acct wal loc dt i dur lvl cb];
  unfold_uploader;
  destruct sel as [sel|], acct as [acct|], wal as [[native]|]; simpl;
  try destruct (isFormValid _) eqn:Hvalid; simpl;
  try destruct native; try destruct cb; simpl;
  repeat next_call;
  repeat match goal with u : unit |- _ => destruct u end;
  intros Hrun; inversion Hrun; subst; clear Hrun;
  simpl; rewrite <- ?app_assoc; simpl;
  first [ eexists; split; [reflexivity|]
        | exists []; split; [symmetry; apply app_nil_r|] ].

Lemma clayCreate_argument (level : jsstring) :
  exists n k d,
    (if (0 <? config_keys
               (providerConfig (Some (erasure_n (redundancyConfig level)))
                               (Some (erasure_k (redundancyConfig level)))
                               (Some (erasure_d (redundancyConfig level)))))%nat
     then Some (providerConfig (Some (erasure_n (redundancyConfig level)))
                               (Some (erasure_k (redundancyConfig level)))
                               (Some (erasure_d (redundancyConfig level))))
     else None)
    = Some {| erasureN := Some n; erasureK := Some k; erasureD := Some d |}
    /\ offered_shape n k d.
Proof.
  destruct (redundancyConfig_cases level) as [Hshape _].
  exists (erasure_n (redundancyConfig level)),
         (erasure_k (redundancyConfig level)),
         (erasure_d (redundancyConfig level)).
  split; [|exact Hshape].
  destruct Hshape as [(-> & -> & ->)|[(-> & -> & ->)|(-> & -> & ->)]];
    reflexivity.
Qed.

Section UploadFurther.

Variable World : Type.
Variable sdk : Sdk World.

(** X19. Without a selected file, without an account, without a wallet or
    with an invalid form, [uploadFile] does nothing: no call is made and
    no state changes. *)
Theorem uploadFile_guard env form st :
  selectedFile form = None \/ account form = None \/ wallet form = None
  \/ isFormValid form = false ->
  uploadFile sdk env form st = (st, Ok tt).
Proof.
  unfold uploadFile.
  intros [H|[H|[H|H]]]; rewrite H;
    repeat match goal with
      | |- context [match ?x with Some _ => _ | None => _ end] => destruct x
      end; reflexivity.
Qed.

(** X20. A run that passes the guard starts by reading the bytes of the
    renamed file and ends with the upload flag reset; the in-progress flag
    of the hook is reset too, unless the run failed before the chain step
    and left the hook as it was. *)
Theorem uploadFile_resets_flags env form selected acc w st st' r :
  selectedFile form = Some selected -> account form = Some acc ->
  wallet form = Some w -> isFormValid form = true ->
  uploadFile sdk env form st = (st', r) ->
  (exists res rest,
      trace st'
      = trace st
        ++ EvArrayBuffer {| file_name := generateFileName form;
                            file_type := file_type selected;
                            file_parts := file_parts selected |} res
           :: rest)
  /\ isUploading (ui st') = false
  /\ (isSubmitting (hook st') = false \/ hook st' = hook st).
Proof.
  intros Hsel Hacc Hw Hv. revert Hsel Hacc Hw Hv.
  destruct form as [sel acct wal loc dt i dur lvl cb]; simpl.
  intros -> -> ->. destruct w as [native]. intros Hv.
  unfold_uploader. simpl. rewrite Hv. simpl.
  destruct native, cb; simpl; repeat next_call;
    intros Hrun; inversion Hrun; subst; clear Hrun;
    simpl; rewrite <- ?app_assoc; simpl;
    (split; [do 2 eexists; reflexivity|]); (split; [reflexivity|]);
    first [left; reflexivity | right; reflexivity].
Qed.

(** X21. Every failure is reported once: the run shows exactly one alert
    when a call has failed and none otherwise, and the alert reads "Upload
    failed: " followed by the message of the error that the failed call
    threw (or "Unknown error" when what was thrown is not an Error). *)
Theorem uploadFile_alerts_once_per_failure env form st st' r :
  uploadFile sdk env form st = (st', r) ->
  exists tr,
    trace st' = trace st ++ tr
    /\ List.length (filter is_alert tr)
       = (if existsb event_failed tr then 1 else 0)%nat
    /\ (List.length (filter event_failed tr) <= 1)%nat
    /\ forall msg, In (EvAlert msg) tr ->
         exists err,
           In (Some err) (map event_error tr)
           /\ In (EvConsoleError err) tr
           /\ msg = of_string "Upload failed: "
                    ++ message_or (of_string "Unknown error") err.
Proof.
  upload_runs form;
    (split; [reflexivity|]); (split; [simpl; lia|]);
    intros msg Hin; each_event Hin;
    match goal with
    | |- exists err, _ /\ In (EvConsoleError err) ?tr /\ _ =>
        match tr with
        | context [EvConsoleError ?e] => exists e
        end
    end;
    (split; [in_list|split; [in_list|reflexivity]]).
Qed.

(** X22. One file goes through the whole run: the file whose bytes are
    encoded and the file uploaded to storage are the selected file under
    the generated name, and the blob is registered on chain under that
    same name, for the connected account. *)
Theorem uploadFile_one_name env form st st' r :
  uploadFile sdk env form st = (st', r) ->
  exists tr,
    trace st' = trace st ++ tr
    /\ (forall file res,
          In (EvArrayBuffer file res) tr ->
          exists selected,
            selectedFile form = Some selected
            /\ file = {| file_name := generateFileName form;
                         file_type := file_type selected;
                         file_parts := file_parts selected |})
    /\ (forall file res,
          In (EvUploadFileToRcp file res) tr ->
          exists selected,
            selectedFile form = Some selected
            /\ file = {| file_name := generateFileName form;
                         file_type := file_type selected;
                         file_parts := file_parts selected |})
    /\ (forall a res,
          In (EvCreateRegisterBlobPayload a res) tr ->
          arg_blobName a = generateFileName form
          /\ exists acc, account form = Some acc /\ arg_account a = address acc).
Proof.
  upload_runs form;
    (split; [intros file res Hin; each_event Hin; eexists; split; reflexivity|]);
    (split; [intros file res Hin; each_event Hin; eexists; split; reflexivity|]);
    intros a' res Hin; each_event Hin;
    (split; [reflexivity|eexists; split; reflexivity]).
Qed.

(** X23. What is registered on chain is what was encoded in this run: the
    merkle root and the size of the payload are those of the commitments
    generated from the bytes read from the file, and the number of
    chunksets is what [expectedTotalChunksets] returned for that size. *)
Theorem uploadFile_registers_generated_commitment env form st st' r :
  uploadFile sdk env form st = (st', r) ->
  exists tr,
    trace st' = trace st ++ tr
    /\ forall a res,
         In (EvCreateRegisterBlobPayload a res) tr ->
         exists file data provider commitments,
           In (EvArrayBuffer file (Ok data)) tr
           /\ In (EvGenerateCommitments provider data (Ok commitments)) tr
           /\ In (EvExpectedTotalChunksets (raw_data_size commitments)
                                           (Ok (arg_numChunksets a))) tr
           /\ arg_blobMerkleRoot a = blob_merkle_root commitments
           /\ arg_blobSize a = raw_data_size commitments.
Proof.
  upload_runs form; intros a' res Hin; each_event Hin;
    do 4 eexists;
    (split; [in_list|split; [in_list|split; [in_list|split; reflexivity]]]).
Qed.

(** X24. The provider is always created with a full configuration: every
    call of [ClayErasureCodingProvider.create] made by [uploadFile]
    receives the three parameters, and they form one of the offered
    shapes. *)
Theorem uploadFile_configures_provider env form st st' r :
  uploadFile sdk env form st = (st', r) ->
  exists tr,
    trace st' = trace st ++ tr
    /\ forall cfg res,
         In (EvClayCreate cfg res) tr ->
         exists n k d,
           cfg = Some {| erasureN := Some n; erasureK := Some k;
                         erasureD := Some d |}
           /\ offered_shape n k d.
Proof.
  upload_runs form; intros cfg res Hin; each_event Hin;
    apply clayCreate_argument.
Qed.

(** X25. When the refresh callback throws, the run has already shown the
    success dialog for a finalized and uploaded blob, and it shows the
    failure alert as well. *)
Theorem uploadFile_refresh_failure env form st st' r :
  uploadFile sdk env form st = (st', r) ->
  exists tr,
    trace st' = trace st ++ tr
    /\ forall err,
         In (EvOnUploadSuccess (Throw err)) tr ->
         showSuccessDialog (ui st') = true
         /\ uploadedFileName (ui st') = generateFileName form
         /\ (exists file hash,
                In (EvUploadFileToRcp file (Ok tt)) tr
                /\ transactionHash (ui st') = hash
                /\ (In (EvAptosWaitForTransaction hash (Ok tt)) tr
                    \/ In (EvShelbyWaitForTransaction hash (Ok tt)) tr))
         /\ In (EvAlert (of_string "Upload failed: "
                         ++ message_or (of_string "Unknown error") err)) tr.
Proof.
  upload_runs form; intros err Hin; each_event Hin;
    (split; [reflexivity|split; [reflexivity|split; [|in_list]]]);
    do 2 eexists; (split; [in_list|split; [reflexivity|]]);
    first [left; in_list; fail | right; in_list].
Qed.

End UploadFurther.

(* ===================================================================== *)
(** ** The form and its reset *)


(* ===================================================================== *)
(** ** The city picker *)

Lemma startsWith_spec (s p : jsstring) :
  startsWith s p = true <-> exists b, s = p ++ b.
Proof.
  revert s. induction p as [|c p IH]; intros s; simpl.
  - split; [intros _; exists s; reflexivity|destruct s; reflexivity].
  - destruct s as [|d s].
    + split; [discriminate|intros [b Hb]; discriminate].
    + simpl. rewrite andb_true_iff, N.eqb_eq, IH. split.
      * intros [-> [b ->]]. exists b. reflexivity.
      * intros [b Hb]. injection Hb as -> ->. split; [reflexivity|].
        exists b. reflexivity.
Qed.

Lemma includes_spec (s p : jsstring) :
  includes s p = true <-> exists a b, s = a ++ p ++ b.
Proof.
  induction s as [|c t IH].
  - change (includes [] p) with (startsWith [] p || false).
    rewrite orb_false_r, startsWith_spec. split.
    + intros [b Hb]. exists [], b. exact Hb.
    + intros (a & b & H). destruct a; [exists b; exact H|discriminate].
  - change (includes (c :: t) p) with (startsWith (c :: t) p || includes t p).
    rewrite orb_true_iff, startsWith_spec, IH. split.
    + intros [[b Hb]|(a & b & H)].
      * exists [], b. exact Hb.
      * exists (c :: a), b. simpl. now rewrite H.
    + intros ([|x a] & b & H).
      * left. exists b. exact H.
      * right. injection H as -> ->. exists a, b. reflexivity.
Qed.

Lemma In_firstn {A} (n : nat) (l : list A) x : In x (firstn n l) -> In x l.
Proof.
  intros H. rewrite <- (firstn_skipn n l). apply in_or_app. left. exact H.
Qed.

(** X27. The picker lists at most 100 cities, all from the list of cities;
    when a search term is typed, the lower-cased name or the lower-cased
    country code of every listed city contains the lower-cased term. *)
Theorem filteredCities_sound
        (toLowerCase : jsstring -> jsstring)
        (searchTerm : jsstring) (all : list CityEntry) :
  (List.length (filteredCities toLowerCase searchTerm all) <= 100)%nat
  /\ forall city,
       In city (filteredCities toLowerCase searchTerm all) ->
       In city all
       /\ (searchTerm <> [] ->
           exists a b,
             toLowerCase (entry_name city) = a ++ toLowerCase searchTerm ++ b
             \/ toLowerCase (entry_country city)
                = a ++ toLowerCase searchTerm ++ b).
Proof.
  unfold filteredCities. split.
  - destruct searchTerm; apply firstn_le_length.
  - intros city Hin. destruct searchTerm as [|c t].
    + split; [eapply In_firstn; exact Hin|]. intros H. contradiction.
    + apply In_firstn, filter_In in Hin. destruct Hin as [Hall Hm].
      split; [exact Hall|]. intros _.
      unfold cityMatches in Hm. apply orb_true_iff in Hm.
      destruct Hm as [Hm|Hm]; apply includes_spec in Hm;
        destruct Hm as (a & b & Hm); exists a, b; [left|right]; exact Hm.
Qed.

(** X28. When at most 100 cities match the search term, every city whose
    lower-cased name or country code contains the lower-cased term is
    listed. *)
Theorem filteredCities_complete
        (toLowerCase : jsstring -> jsstring)
        (searchTerm : jsstring) (all : list CityEntry) (city : CityEntry) :
  searchTerm <> [] ->
  (List.length (filter (cityMatches toLowerCase (toLowerCase searchTerm)) all)
   <= 100)%nat ->
  In city all ->
  (exists a b,
      toLowerCase (entry_name city) = a ++ toLowerCase searchTerm ++ b
      \/ toLowerCase (entry_country city) = a ++ toLowerCase searchTerm ++ b) ->
  In city (filteredCities toLowerCase searchTerm all).
Proof.
  intros Hne Hfew Hin (a & b & Hm). unfold filteredCities.
  destruct searchTerm as [|c t]; [contradiction|].
  rewrite firstn_all2 by exact Hfew. apply filter_In. split; [exact Hin|].
  unfold cityMatches. apply orb_true_iff.
  destruct Hm as [Hm|Hm]; [left|right]; apply includes_spec; exists a, b; exact Hm.
Qed.

Example filteredCities_samples :
  map entry_name (filteredCities Sample.lowerAscii (of_string "PAR") Sample.cities)
  = [of_string "Paris"; of_string "Parma"]
  /\ map entry_name (filteredCities Sample.lowerAscii (of_string "no") Sample.cities)
     = [of_string "Oslo"]
  /\ List.length (filteredCities Sample.lowerAscii [] Sample.cities) = 3%nat
  /\ map entry_displayName Sample.cities
     = [of_string "Paris, IDF, FR"; of_string "Parma, IT"; of_string "Oslo, 03, NO"].
Proof. repeat split. Qed.

(* ===================================================================== *)
(** ** The further statements at concrete inputs *)

Lemma generateFileName_keeps_extension_witness :
  getFileExtension
    (Some {| file_name := generateFileName Demo.form;
             file_type := of_string "image/jpeg"; file_parts := 100%N |})
  = of_string ".jpg".
Proof.
  exact (@generateFileName_keeps_extension Demo.form
           {| file_name := of_string "a.jpg";
              file_type := of_string "image/jpeg"; file_parts := 100%N |}
           eq_refl).
Defined.

Lemma filteredCities_complete_witness :
  In (formatCity Sample.parma)
     (filteredCities Sample.lowerAscii (of_string "PAR") Sample.cities).
Proof.
  apply filteredCities_complete.
  - discriminate.
  - vm_compute. lia.
  - right. left. reflexivity.
  - exists [], (of_string "ma"). left. reflexivity.
Defined.

Lemma views_partition_frozen_clock_witness :
  exists current expired,
    snd (views (Demo.frozen_sdk 5) [Demo.tie_blob] (Demo.start Demo.world0))
    = Ok (current, expired)
    /\ ((In Demo.tie_blob current /\ ~ In Demo.tie_blob expired)
        \/ (~ In Demo.tie_blob current /\ In Demo.tie_blob expired)).
Proof.
  apply (@views_partition_frozen_clock Demo.World (Demo.frozen_sdk 5) 5
           [Demo.tie_blob] (Demo.start Demo.world0) Demo.tie_blob).
  - intros w. reflexivity.
  - left. reflexivity.
Defined.

Lemma submitFileToChain_stops_at_first_failure_witness :
  exists tr,
    trace (fst (submitFileToChain Demo.sdk Demo.env (Some Demo.alice)
                  (Some Demo.native) Demo.commitment Demo.photo 5
                  None None None (Demo.start Demo.rejecting)))
    = [] ++ tr
    /\ tr <> []
    /\ existsb event_failed (removelast tr) = false.
Proof.
  destruct (@submitFileToChain_stops_at_first_failure Demo.World Demo.sdk
              Demo.env Demo.alice Demo.native Demo.commitment Demo.photo 5
              None None None (Demo.start Demo.rejecting) _ _
              (surjective_pairing _))
    as (tr & Htr & Hne & Hfail & _).
  exists tr. repeat split; assumption.
Defined.

Lemma submitFileToChain_returns_finalized_hash_witness :
  exists tr,
    trace (fst (submitFileToChain Demo.sdk Demo.env (Some Demo.alice)
                  (Some Demo.foreign) Demo.commitment Demo.photo 5
                  None None None (Demo.start Demo.world0)))
    = [] ++ tr
    /\ finalized Demo.hash (last tr (EvDateNow 0)).
Proof.
  destruct (@submitFileToChain_returns_finalized_hash Demo.World Demo.sdk
              Demo.env Demo.alice Demo.foreign Demo.commitment Demo.photo 5
              None None None (Demo.start Demo.world0)
              (fst (submitFileToChain Demo.sdk Demo.env (Some Demo.alice)
                      (Some Demo.foreign) Demo.commitment Demo.photo 5
                      None None None (Demo.start Demo.world0)))
              Demo.hash eq_refl)
    as (tr & Htr & Hfin & _).
  exists tr. split; assumption.
Defined.

Lemma failed_authorization_submits_nothing_witness :
  exists tr,
    trace (fst (submitFileToChain Demo.sdk Demo.env (Some Demo.alice)
                  (Some Demo.foreign) Demo.commitment Demo.photo 5
                  None None None (Demo.start Demo.rejecting)))
    = [] ++ tr
    /\ forall raw err, In (EvSignTransaction raw (Throw err)) tr ->
         existsb is_submit tr = false.
Proof.
  destruct (@failed_authorization_submits_nothing Demo.World Demo.sdk
              Demo.env Demo.alice Demo.foreign Demo.commitment Demo.photo 5
              None None None (Demo.start Demo.rejecting) _ _
              (surjective_pairing _))
    as (tr & Htr & Hsign & _).
  exists tr. split; [exact Htr|].
  intros raw err Hin. apply (Hsign raw err Hin).
Defined.

Lemma sponsor_key_failure_precedes_remote_calls_witness :
  exists tr,
    trace (fst (submitFileToChain Demo.sdk Sample.no_key (Some Demo.alice)
                  (Some Demo.foreign) Demo.commitment Demo.photo 5
                  None None None (Demo.start Demo.world0)))
    = [] ++ tr
    /\ forall err, In (EvFormatPrivateKey None (Throw err)) tr ->
         existsb is_remote_call tr = false.
Proof.
  destruct (@sponsor_key_failure_precedes_remote_calls Demo.World Demo.sdk
              Sample.no_key Demo.alice Demo.foreign Demo.commitment Demo.photo
              5 None None None (Demo.start Demo.world0) _ _
              (surjective_pairing _))
    as (tr & Htr & Hkey).
  exists tr. split; [exact Htr|].
  intros err Hin.
  apply (Hkey (EvFormatPrivateKey None (Throw err)) err Hin eq_refl eq_refl eq_refl).
Defined.

Lemma fee_payer_is_the_configured_sponsor_witness :
  exists tr,
    trace (fst (submitFileToChain Demo.sdk Demo.env (Some Demo.alice)
                  (Some Demo.foreign) Demo.commitment Demo.photo 5
                  None None None (Demo.start Demo.world0)))
    = [] ++ tr
    /\ forall signer raw res,
         In (EvSignAsFeePayer signer raw res) tr ->
         exists formatted,
           In (EvFormatPrivateKey (Some (of_string "0x01")) (Ok formatted)) tr.
Proof.
  destruct (@fee_payer_is_the_configured_sponsor Demo.World Demo.sdk
              Demo.env Demo.alice Demo.foreign Demo.commitment Demo.photo 5
              None None None (Demo.start Demo.world0) _ _
              (surjective_pairing _))
    as (tr & Htr & Hfee).
  exists tr. split; [exact Htr|].
  intros signer raw res Hin.
  destruct (Hfee signer raw res Hin) as (formatted & key & Hf & _).
  exists formatted. exact Hf.
Defined.

Lemma encodeFile_success_witness :
  exists data cfg provider,
    trace (fst (encodeFile Demo.sdk Demo.photo (Some 16%Z) (Some 0%Z) None
                  (Demo.start Demo.world0)))
    = [] ++ [ EvArrayBuffer Demo.photo (Ok data);
              EvClayCreate cfg (Ok provider);
              EvGenerateCommitments provider data (Ok Demo.commitment) ].
Proof.
  destruct (@encodeFile_success Demo.World Demo.sdk Demo.photo
              (Some 16%Z) (Some 0%Z) None (Demo.start Demo.world0)
              (fst (encodeFile Demo.sdk Demo.photo (Some 16%Z) (Some 0%Z) None
                      (Demo.start Demo.world0)))
              Demo.commitment eq_refl)
    as (data & cfg & provider & Htr & _).
  exists data, cfg, provider. exact Htr.
Defined.

Lemma encodeFile_failure_witness :
  exists tr,
    trace (fst (encodeFile Sample.failing_encoder Demo.photo None None None
                  (Demo.start Demo.world0)))
    = [] ++ tr
    /\ event_error (last tr (EvDateNow 0))
       = Some (ErrorObj (of_string "Encoding failed")).
Proof.
  destruct (@encodeFile_failure Demo.World Sample.failing_encoder Demo.photo
              None None None (Demo.start Demo.world0)
              (fst (encodeFile Sample.failing_encoder Demo.photo None None None
                      (Demo.start Demo.world0)))
              (ErrorObj (of_string "Encoding failed")) eq_refl)
    as (tr & Htr & _ & _ & Herr & _).
  exists tr. split; assumption.
Defined.

Lemma uploadFile_guard_witness :
  uploadFile Demo.sdk Demo.env Sample.no_file (Demo.start Demo.world0)
  = (Demo.start Demo.world0, Ok tt).
Proof.
  apply uploadFile_guard. left. reflexivity.
Defined.

Lemma uploadFile_resets_flags_witness :
  isUploading (ui (fst (uploadFile Demo.sdk Demo.env Demo.form
                          (Demo.start Demo.rejecting)))) = false.
Proof.
  destruct (@uploadFile_resets_flags Demo.World Demo.sdk Demo.env Demo.form
              {| file_name := of_string "a.jpg";
                 file_type := of_string "image/jpeg"; file_parts := 100%N |}
              Demo.alice Demo.native (Demo.start Demo.rejecting) _ _
              eq_refl eq_refl eq_refl eq_refl (surjective_pairing _))
    as (_ & Hup & _).
  exact Hup.
Defined.

Lemma uploadFile_alerts_once_per_failure_witness :
  exists tr,
    trace (fst (uploadFile Demo.sdk Demo.env Demo.form (Demo.start Demo.rejecting)))
    = [] ++ tr
    /\ List.length (filter is_alert tr)
       = (if existsb event_failed tr then 1 else 0)%nat.
Proof.
  destruct (@uploadFile_alerts_once_per_failure Demo.World Demo.sdk Demo.env
              Demo.form (Demo.start Demo.rejecting) _ _ (surjective_pairing _))
    as (tr & Htr & Hn & _).
  exists tr. split; assumption.
Defined.

Lemma uploadFile_one_name_witness :
  exists tr,
    trace (fst (uploadFile Demo.sdk Demo.env Demo.form (Demo.start Demo.world0)))
    = [] ++ tr
    /\ forall a res, In (EvCreateRegisterBlobPayload a res) tr ->
         arg_blobName a = generateFileName Demo.form.
Proof.
  destruct (@uploadFile_one_name Demo.World Demo.sdk Demo.env Demo.form
              (Demo.start Demo.world0) _ _ (surjective_pairing _))
    as (tr & Htr & _ & _ & Hname).
  exists tr. split; [exact Htr|].
  intros a res Hin. apply (Hname a res Hin).
Defined.

Lemma uploadFile_registers_generated_commitment_witness :
  exists tr,
    trace (fst (uploadFile Demo.sdk Demo.env Sample.sponsored_form
                  (Demo.start Demo.world0)))
    = [] ++ tr
    /\ forall a res, In (EvCreateRegisterBlobPayload a res) tr ->
         exists provider data commitments,
           In (EvGenerateCommitments provider data (Ok commitments)) tr
           /\ arg_blobSize a = raw_data_size commitments.
Proof.
  destruct (@uploadFile_registers_generated_commitment Demo.World Demo.sdk
              Demo.env Sample.sponsored_form (Demo.start Demo.world0) _ _
              (surjective_pairing _))
    as (tr & Htr & Hc).
  exists tr. split; [exact Htr|].
  intros a res Hin.
  destruct (Hc a res Hin) as (file & data & provider & commitments
                              & _ & Hg & _ & _ & Hsize).
  exists provider, data, commitments. split; assumption.
Defined.

Lemma uploadFile_configures_provider_witness :
  exists tr,
    trace (fst (uploadFile Demo.sdk Demo.env Sample.sponsored_form
                  (Demo.start Demo.world0)))
    = [] ++ tr
    /\ forall cfg res, In (EvClayCreate cfg res) tr -> cfg <> None.
Proof.
  destruct (@uploadFile_configures_provider Demo.World Demo.sdk Demo.env
              Sample.sponsored_form (Demo.start Demo.world0) _ _
              (surjective_pairing _))
    as (tr & Htr & Hcfg).
  exists tr. split; [exact Htr|].
  intros cfg res Hin. destruct (Hcfg cfg res Hin) as (n & k & d & -> & _).
  discriminate.
Defined.

Lemma uploadFile_refresh_failure_witness :
  exists tr,
    trace (fst (uploadFile Sample.failing_refresh Demo.env Demo.form
                  (Demo.start Demo.world0)))
    = [] ++ tr
    /\ forall err, In (EvOnUploadSuccess (Throw err)) tr ->
         showSuccessDialog
           (ui (fst (uploadFile Sample.failing_refresh Demo.env Demo.form
                       (Demo.start Demo.world0)))) = true.
Proof.
  destruct (@uploadFile_refresh_failure Demo.World Sample.failing_refresh
              Demo.env Demo.form (Demo.start Demo.world0) _ _
              (surjective_pairing _))
    as (tr & Htr & Hr).
  exists tr. split; [exact Htr|].
  intros err Hin. apply (Hr err Hin).
Defined.

(** The demo upload with a refresh callback that throws: the dialog is
    shown and the alert too. *)
Example demo_refresh_failure :
  let out := uploadFile Sample.failing_refresh Demo.env Demo.form
               (Demo.start Demo.world0) in
  showSuccessDialog (ui (fst out)) = true
  /\ List.length (filter is_alert (trace (fst out))) = 1%nat
  /\ In (EvOnUploadSuccess (Throw (ErrorObj (of_string "Refresh failed"))))
        (trace (fst out)).
Proof. vm_compute. repeat split. do 9 right. left. reflexivity. Qed.
